(** * AeroLaunch: configuration persistence, registry operations,
      discovery and launch of [src/main.py], embedded in Rocq.

    The embedding follows the Python source function by function.

    - Python values that travel through [json.load] / [json.dump] are the
      inductive [pyval]; a Python [dict] is an insertion-ordered association
      list with the update-in-place behaviour of [d[k] = v].
    - The text of the configuration file is represented by what [json.load]
      makes of it: [JsonText v] is a text that parses to [v], [BadText] a text
      that makes [json.load] raise [JSONDecodeError], [Undecodable] bytes
      that make the read raise [UnicodeDecodeError]; [json.dump v] writes
      [JsonText v].  The [json] library itself is not part of the repository.
    - A write can complete, fail at [open(CONFIG_FILE, 'w')] with the file
      as it was, or fail in [json.dump] after [open] has truncated the file.
    - A [FlightApp] carries the field types of the data model: a [str] name,
      a [str] or [None] path, a [bool] flag.  [from_dict] answers
      [Unmodelled] on a dict whose fields have other types (Python would build
      an object with such attributes; nothing below speaks about them).
    - Exceptions are explicit: a fallible block returns an [outcome].
    - The window's state is a [World]: the list [available_apps], the
      configuration file and the trace of message boxes shown and processes
      spawned.  Row [i] of the list widget carries [available_apps[i]]
      ([_update_app_list_widget] rebuilds the rows after every change of the
      list), so a selected row is an index into the list.
    - What the Python runtime and the machine decide ([sys.platform],
      [str.lower], [os.environ], [os.path.exists], [os.path.join], the
      Windows registry, [mdfind], whether [subprocess.Popen] raises) is a
      field of the record [Host]; the theorems hold for every host.
    - [print] calls are left out. *)

From Stdlib Require Import ZArith Lia Ascii String.
From stdpp Require Import base list strings.

Local Open Scope string_scope.
Local Open Scope list_scope.

(** ** Python values and exceptions *)

#[local] Set Warnings "-register-all".

Inductive pyval :=
| PyNone
| PyBool (b : bool)
| PyInt (n : Z)
| PyFloat (bits : Z)
| PyStr (s : string)
| PyList (xs : list pyval)
| PyDict (kvs : list (string * pyval)).

Inductive exn :=
| JSONDecodeError | UnicodeDecodeError | AttributeError | TypeError | OSError.

(** What a block of code that may raise produces. *)
Inductive outcome (A : Type) :=
| Ok (a : A)
| Raise (e : exn).
Arguments Ok {A} a.
Arguments Raise {A} e.

Definition bind {A B} (m : outcome A) (k : A -> outcome B) : outcome B :=
  match m with
  | Ok a => k a
  | Raise e => Raise e
  end.

Notation "'let!' x ':=' m 'in' k" := (bind m (fun x => k))
  (at level 10, x name, m at level 100, k at level 200).

(** What reading entries from a document produces: besides a value or an
    exception, [Unmodelled] marks a dict whose fields do not have the types
    of the data model. *)
Inductive decoded (A : Type) :=
| Decoded (a : A)
| Raised (e : exn)
| Unmodelled.
Arguments Decoded {A} a.
Arguments Raised {A} e.
Arguments Unmodelled {A}.

Definition lift {A} (m : outcome A) : decoded A :=
  match m with
  | Ok a => Decoded a
  | Raise e => Raised e
  end.

Definition dbind {A B} (m : decoded A) (k : A -> decoded B) : decoded B :=
  match m with
  | Decoded a => k a
  | Raised e => Raised e
  | Unmodelled => Unmodelled
  end.

Notation "'let?' x ':=' m 'in' k" := (dbind m (fun x => k))
  (at level 10, x name, m at level 100, k at level 200).

(** Truth value of a Python object ([if v:]).  A float is given by its
    IEEE-754 bit pattern; [0.0] and [-0.0] are false. *)
Definition truthy (v : pyval) : bool :=
  match v with
  | PyNone => false
  | PyBool b => b
  | PyInt n => negb (n =? 0)%Z
  | PyFloat bits => negb (bits mod 2 ^ 63 =? 0)%Z
  | PyStr s => negb (String.eqb s "")
  | PyList xs => match xs with [] => false | _ => true end
  | PyDict kvs => match kvs with [] => false | _ => true end
  end.

(** [d.get(k)] on the items of a dict. *)
Fixpoint dict_get (k : string) (d : list (string * pyval)) : option pyval :=
  match d with
  | [] => None
  | (k', v) :: d' => if String.eqb k k' then Some v else dict_get k d'
  end.

(** [d[k] = v]: replaces the value of an existing key where it stands,
    appends a new key at the end. *)
Fixpoint dict_set (k : string) (v : pyval) (d : list (string * pyval))
  : list (string * pyval) :=
  match d with
  | [] => [(k, v)]
  | (k', v') :: d' =>
      if String.eqb k k' then (k', v) :: d' else (k', v') :: dict_set k v d'
  end.

(** [obj.get(k, default)]: only a dict has the method. *)
Definition py_get (obj : pyval) (k : string) (default : pyval) : outcome pyval :=
  match obj with
  | PyDict d => Ok (match dict_get k d with Some v => v | None => default end)
  | _ => Raise AttributeError
  end.

(** [obj[k] = v] with a [str] key: only a dict supports it. *)
Definition py_setitem (obj : pyval) (k : string) (v : pyval) : outcome pyval :=
  match obj with
  | PyDict d => Ok (PyDict (dict_set k v d))
  | _ => Raise TypeError
  end.

(** ** FlightApp *)

Record FlightApp := mkFlightApp {
  name : string;
  path : option string;
  default_checked : bool
}.

(** [FlightApp(name)] with the constructor's defaults. *)
Definition FlightApp_named (n : string) : FlightApp := mkFlightApp n None false.

Definition py_of_path (p : option string) : pyval :=
  match p with Some s => PyStr s | None => PyNone end.

Definition to_dict (app : FlightApp) : pyval :=
  PyDict [("name", PyStr (name app));
          ("path", py_of_path (path app));
          ("default_checked", PyBool (default_checked app))].

(** The three field reads of [from_dict], with the types of the data model:
    [data.get("name")], [data.get("path")], [data.get("default_checked", False)]. *)
Definition name_of_py (v : option pyval) : option string :=
  match v with Some (PyStr s) => Some s | _ => None end.

Definition path_of_py (v : option pyval) : option (option string) :=
  match v with
  | None | Some PyNone => Some None
  | Some (PyStr s) => Some (Some s)
  | _ => None
  end.

Definition checked_of_py (v : option pyval) : option bool :=
  match v with
  | None => Some false
  | Some (PyBool b) => Some b
  | _ => None
  end.

Definition from_dict (data : pyval) : decoded FlightApp :=
  match data with
  | PyDict d =>
      match name_of_py (dict_get "name" d),
            path_of_py (dict_get "path" d),
            checked_of_py (dict_get "default_checked" d) with
      | Some n, Some p, Some c => Decoded (mkFlightApp n p c)
      | _, _, _ => Unmodelled
      end
  | _ => Raised AttributeError
  end.

(** [[FlightApp.from_dict(app_dict) for app_dict in apps_data]] over the
    elements of a list. *)
Fixpoint from_dicts (xs : list pyval) : decoded (list FlightApp) :=
  match xs with
  | [] => Decoded []
  | x :: xs' =>
      let? a := from_dict x in
      let? r := from_dicts xs' in
      Decoded (a :: r)
  end.

(** Iterating a Python value in the comprehension: a list yields its
    elements; a dict yields its keys and a str its characters, all of them
    str objects; numbers, booleans and None are not iterable. *)
Definition from_dict_each (apps_data : pyval) : decoded (list FlightApp) :=
  match apps_data with
  | PyList xs => from_dicts xs
  | PyDict _ | PyStr _ => Raised AttributeError
  | _ => Raised TypeError
  end.

(** ** The configuration file and the window state *)

(** What the file holds: text that [json.load] parses to [v]; text that
    [json.load] rejects with [JSONDecodeError]; or bytes that are no text in
    the encoding of [open(CONFIG_FILE, 'r')], so that reading raises
    [UnicodeDecodeError], an exception that, like any other than
    [JSONDecodeError], passes the inner [except] of [_save_config]. *)
Inductive file_text :=
| JsonText (v : pyval)
| BadText (raw : string)
| Undecodable (raw : string).

(** How the disk answers [open(CONFIG_FILE, 'w')] and [json.dump]: the write
    completes; [open] raises and the file is as it was; or [open] truncates
    the file and [json.dump] raises part-way, with [remains] in the file. *)
Inductive write_answer :=
| Completes
| OpenRaises
| DumpRaises (remains : file_text).

(** [content = None]: the file does not exist. *)
Record ConfigFile := mkConfigFile {
  content : option file_text;
  on_write : write_answer
}.

Inductive invocation :=
| OpenBundle (p : string)
| ShellExec (p : string)
| DirectExec (p : string).

(** One constructor per [QMessageBox] call of the source. *)
Inductive message :=
| ConfigErrorJSON
| ConfigErrorUnexpected
| ConfigSaveError
| LaunchError (app_name : string)
| MissingPath (app_name : string)
| LaunchComplete (launched_count : nat)
| LaunchNothing
| Discovering
| DiscoveryComplete (found_count : nat)
| DiscoveryNothing
| DuplicateName (app_name : string)
| InputErrorPath
| InputErrorName
| AppAdded (app_name : string)
| AddCancelled
| EditComplete (app_name : string)
| EditCancelled
| DeleteComplete (app_name : string)
| DeleteCancelled.

Inductive event :=
| Show (m : message)
| Popen (inv : invocation).

Record World := mkWorld {
  available_apps : list FlightApp;
  config : ConfigFile;
  trace : list event
}.

Definition set_apps (apps : list FlightApp) (w : World) : World :=
  mkWorld apps (config w) (trace w).

Definition set_config (c : ConfigFile) (w : World) : World :=
  mkWorld (available_apps w) c (trace w).

Definition show (m : message) (w : World) : World :=
  mkWorld (available_apps w) (config w) (trace w ++ [Show m]).

(** The two seed lists of the source: the one [MainWindow.__init__] installs
    and the one [_load_config] installs in its two [except] branches. *)
Definition initial_apps : list FlightApp :=
  [ mkFlightApp "Microsoft Flight Simulator" None true;
    FlightApp_named "Elevatex";
    FlightApp_named "Navigraph Charts" ].

Definition reset_apps : list FlightApp :=
  [ mkFlightApp "Microsoft Flight Simulator" None true;
    FlightApp_named "ElevateX";
    FlightApp_named "Navigraph Charts" ].

(** ** _save_config *)

(** [json.load] on the text of the file. *)
Definition json_load (t : file_text) : outcome pyval :=
  match t with
  | JsonText v => Ok v
  | BadText _ => Raise JSONDecodeError
  | Undecodable _ => Raise UnicodeDecodeError
  end.

(** The inner [try] of [_save_config]: the existing document, [{}] when the
    file is absent or [json.load] raises [JSONDecodeError]. *)
Definition read_existing (c : ConfigFile) : outcome pyval :=
  match content c with
  | None => Ok (PyDict [])
  | Some t =>
      match json_load t with
      | Raise JSONDecodeError => Ok (PyDict [])
      | r => r
      end
  end.

(** [open(CONFIG_FILE, 'w')] followed by [json.dump]: the file afterwards,
    and whether the block raised. *)
Definition write_json (v : pyval) (c : ConfigFile) : ConfigFile * outcome unit :=
  match on_write c with
  | Completes => (mkConfigFile (Some (JsonText v)) (on_write c), Ok tt)
  | OpenRaises => (c, Raise OSError)
  | DumpRaises remains =>
      (mkConfigFile (Some remains) (on_write c), Raise OSError)
  end.

(** The body of the outer [try] of [_save_config]: the file afterwards, and
    whether the body raised.  Nothing is written before [open]. *)
Definition save_run (current_platform : string) (apps : list FlightApp)
    (c : ConfigFile) : ConfigFile * outcome unit :=
  let apps_for_platform := PyList (map to_dict apps) in
  match
    (let! existing_config := read_existing c in
     py_setitem existing_config current_platform apps_for_platform)
  with
  | Ok existing_config => write_json existing_config c
  | Raise e => (c, Raise e)
  end.

(** The body completes and leaves the file [c'], or raises. *)
Definition save_body (current_platform : string) (apps : list FlightApp)
    (c : ConfigFile) : outcome ConfigFile :=
  match save_run current_platform apps c with
  | (c', Ok _) => Ok c'
  | (_, Raise e) => Raise e
  end.

Definition _save_config (current_platform : string) (w : World) : World :=
  match save_run current_platform (available_apps w) (config w) with
  | (c, Ok _) => set_config c w
  | (c, Raise _) => show ConfigSaveError (set_config c w)
  end.

(** ** _load_config *)

(** The body of the [try] of [_load_config], up to the branch on
    [apps_data]: [Some apps] is the list to install, [None] the [else]
    branch. *)
Definition load_body (current_platform : string) (t : file_text)
  : decoded (option (list FlightApp)) :=
  let? config_data := lift (json_load t) in
  let? apps_data := lift (py_get config_data current_platform (PyList [])) in
  if truthy apps_data then
    let? apps := from_dict_each apps_data in
    Decoded (Some apps)
  else Decoded None.

(** [None] only where [from_dict] is [Unmodelled]. *)
Definition _load_config (current_platform : string) (w : World) : option World :=
  match content (config w) with
  | None => Some (_save_config current_platform w)
  | Some t =>
      match load_body current_platform t with
      | Decoded (Some apps) => Some (set_apps apps w)
      | Decoded None => Some (_save_config current_platform w)
      | Raised JSONDecodeError =>
          Some (_save_config current_platform
                  (set_apps reset_apps (show ConfigErrorJSON w)))
      | Raised _ =>
          Some (_save_config current_platform
                  (set_apps reset_apps (show ConfigErrorUnexpected w)))
      | Unmodelled => None
      end
  end.

(** [MainWindow.__init__], as far as the state goes: the seed list, then
    [_load_config]. *)
Definition MainWindow_init (current_platform : string) (c : ConfigFile)
  : option World :=
  _load_config current_platform (mkWorld initial_apps c []).

(** ** The host *)

Inductive hkey_root := HKEY_LOCAL_MACHINE | HKEY_CURRENT_USER.

(** Answer of a [winreg] call: a value, [FileNotFoundError], or any other
    exception (which includes a value that [os.path.join] refuses). *)
Inductive reg_answer (A : Type) :=
| RegValue (a : A)
| RegNotFound
| RegFailure.
Arguments RegValue {A} a.
Arguments RegNotFound {A}.
Arguments RegFailure {A}.

Record Winreg := mkWinreg {
  OpenKey : hkey_root -> string -> reg_answer unit;
  QueryValueEx : hkey_root -> string -> string -> reg_answer string
}.

(** Answer of [subprocess.run(cmd, capture_output=True, text=True,
    check=True)]: the lines [result.stdout.strip().split('\n')], one of the
    two exceptions the source catches, or another exception. *)
Inductive run_answer :=
| Completed (found_paths : list string)
| CalledProcessError
| ToolNotFound
| RunFailure.

Record Host := mkHost {
  sys_platform : string;
  str_lower : string -> string;
  os_environ : string -> option string;
  os_path_exists : string -> bool;
  os_path_join : string -> string -> string;
  os_path_expanduser : string -> string;
  winreg : option Winreg;
  mdfind : string -> run_answer;
  popen_raises : invocation -> bool
}.

Definition nonempty (s : string) : bool := negb (String.eqb s "").

(** Truth value of a path attribute ([if app.path:]). *)
Definition path_set (p : option string) : bool := truthy (py_of_path p).

(** ** Registry operations *)

(** [any(app.name.lower() == n.lower() for app in apps)] *)
Definition name_in_use (h : Host) (n : string) (apps : list FlightApp) : bool :=
  existsb (fun app => String.eqb (str_lower h (name app)) (str_lower h n)) apps.

(** What the details dialog returns: [exec()] rejected, or accepted with
    [get_details()]. *)
Inductive dialog_result :=
| Rejected
| Accepted (new_name new_path : string).

(** [app_name, ok] is the answer of [QInputDialog.getText]; [dlg] the answer
    of the details dialog, asked only when the source reaches it. *)
Definition _add_custom_application (h : Host) (app_name : string) (ok : bool)
    (dlg : dialog_result) (w : World) : World :=
  if ok && nonempty app_name then
    if name_in_use h app_name (available_apps w) then
      show (DuplicateName app_name) w
    else
      match dlg with
      | Accepted new_app_name new_app_path =>
          if negb (nonempty new_app_path) then show InputErrorPath w
          else if negb (String.eqb (str_lower h new_app_name) (str_lower h app_name))
                  && name_in_use h new_app_name (available_apps w) then
            show (DuplicateName new_app_name) w
          else
            let new_app := mkFlightApp new_app_name (Some new_app_path) false in
            let w := set_apps (available_apps w ++ [new_app]) w in
            let w := _save_config (sys_platform h) w in
            show (AppAdded new_app_name) w
      | Rejected => show AddCancelled w
      end
  else if ok && negb (nonempty app_name) then show InputErrorName w
  else show AddCancelled w.

(** [selected] is the selected row, if any; the entries other than the
    edited object are the list without that row. *)
Definition _edit_selected_application (h : Host) (selected : option nat)
    (dlg : dialog_result) (w : World) : World :=
  match selected with
  | None => w
  | Some i =>
      match available_apps w !! i with
      | None => w
      | Some app_to_edit =>
          match dlg with
          | Accepted new_name new_path =>
              if negb (nonempty new_name) then show InputErrorName w
              else if negb (nonempty new_path) then show InputErrorPath w
              else if negb (String.eqb (str_lower h new_name)
                                       (str_lower h (name app_to_edit)))
                      && name_in_use h new_name (delete i (available_apps w)) then
                show (DuplicateName new_name) w
              else
                let edited :=
                  mkFlightApp new_name (Some new_path) (default_checked app_to_edit) in
                let w := set_apps (<[i := edited]> (available_apps w)) w in
                let w := _save_config (sys_platform h) w in
                show (EditComplete new_name) w
          | Rejected => show EditCancelled w
          end
      end
  end.

(** [reply] is the answer to the confirmation question. *)
Definition _delete_selected_application (h : Host) (selected : option nat)
    (reply : bool) (w : World) : World :=
  match selected with
  | None => w
  | Some i =>
      match available_apps w !! i with
      | None => w
      | Some app_to_delete =>
          if reply then
            let w := set_apps (delete i (available_apps w)) w in
            let w := _save_config (sys_platform h) w in
            show (DeleteComplete (name app_to_delete)) w
          else show DeleteCancelled w
      end
  end.

(** The check box of row [i] was set to [checked]. *)
Definition _handle_item_checked_changed (h : Host) (i : nat) (checked : bool)
    (w : World) : World :=
  match available_apps w !! i with
  | None => w
  | Some app =>
      let app := mkFlightApp (name app) (path app) checked in
      _save_config (sys_platform h) (set_apps (<[i := app]> (available_apps w)) w)
  end.

(** ** _launch_selected_applications *)

(** The [subprocess.Popen] call of the current platform. *)
Definition invocation_for (h : Host) (p : string) : invocation :=
  if String.eqb (sys_platform h) "darwin" then OpenBundle p
  else if String.eqb (sys_platform h) "win32" then ShellExec p
  else DirectExec p.

(** One turn of the loop for a row whose check box is [checked]: the events
    of the turn and whether [launched_count] is incremented. *)
Definition launch_row (h : Host) (checked : bool) (app : FlightApp)
  : list event * bool :=
  if checked then
    match path app with
    | Some p =>
        if nonempty p && os_path_exists h p then
          if popen_raises h (invocation_for h p) then
            ([Popen (invocation_for h p); Show (LaunchError (name app))], false)
          else ([Popen (invocation_for h p)], true)
        else ([Show (MissingPath (name app))], false)
    | None => ([Show (MissingPath (name app))], false)
    end
  else ([], false).

(** The [for] loop over the rows, from row [i] on: [checkState] gives the
    check box of each row.  Returns the entries with their flags updated,
    the events in order, and [launched_count]. *)
Fixpoint launch_loop (h : Host) (checkState : nat -> bool) (i : nat)
    (apps : list FlightApp) (launched_count : nat)
  : list FlightApp * list event * nat :=
  match apps with
  | [] => ([], [], launched_count)
  | app :: rest =>
      let app := mkFlightApp (name app) (path app) (checkState i) in
      let '(evs, launched) := launch_row h (checkState i) app in
      let launched_count := if launched then S launched_count else launched_count in
      let '(rest, evs', launched_count) :=
        launch_loop h checkState (S i) rest launched_count in
      (app :: rest, evs ++ evs', launched_count)
  end.

Definition _launch_selected_applications (h : Host) (checkState : nat -> bool)
    (w : World) : World :=
  let '(apps, evs, launched_count) :=
    launch_loop h checkState 0 (available_apps w) 0 in
  let w := mkWorld apps (config w) (trace w ++ evs) in
  let w := _save_config (sys_platform h) w in
  if (0 <? launched_count)%nat then show (LaunchComplete launched_count) w
  else show LaunchNothing w.

(** ** _find_app_path *)

Record WinInfo := mkWinInfo {
  exe : string;
  subdirs : list string;
  registry_key : option string
}.

Record MacInfo := mkMacInfo {
  bundle_name : string;
  bundle_id : option string
}.

(** [table.get(k)] on a dict literal with [str] keys. *)
Fixpoint table_get {A} (k : string) (t : list (string * A)) : option A :=
  match t with
  | [] => None
  | (k', v) :: t' => if String.eqb k k' then Some v else table_get k t'
  end.

(** [os.path.join(a, b, c)] *)
Definition join3 (h : Host) (a b c : string) : string :=
  os_path_join h (os_path_join h a b) c.

Definition app_info (h : Host) : list (string * WinInfo) :=
  [ ("Microsoft Flight Simulator",
     mkWinInfo "FlightSimulator.exe"
       [ os_path_join h (join3 h "Steam" "steamapps" "common")
           "MicrosoftFlightSimulator";
         os_path_join h
           (os_path_join h
              (join3 h "WpSystem" "Microsoft.FlightSimulator_8wekyb3d8bbwe"
                 "LocalCache")
              "Packages")
           "Microsoft.FlightSimulator_8wekyb3d8bbwe" ]
       (Some "SOFTWARE\Microsoft\Windows\CurrentVersion\Uninstall\Steam App 1250410"));
    ("ElevateX",
     mkWinInfo "Elevatex.exe" ["Elevatex"; "ElevateX Beta"] None);
    ("Navigraph Charts",
     mkWinInfo "Navigraph Charts.exe" ["Navigraph"; "Navigraph Charts"]
       (Some "SOFTWARE\Navigraph\Charts")) ].

Definition macos_app_info : list (string * MacInfo) :=
  [ ("Navigraph Charts",
     mkMacInfo "Navigraph Charts.app" (Some "com.navigraph.charts")) ].

(** [[p for p in [environ.get(..), ..] if p]] *)
Definition program_files_paths (h : Host) : list string :=
  omap (fun var =>
          match os_environ h var with
          | Some p => if nonempty p then Some p else None
          | None => None
          end)
       ["ProgramFiles"; "ProgramFiles(x86)"; "LocalAppData"].

(** The inner [for subdir in potential_subdirs] loop under one base. *)
Fixpoint probe_subdirs (h : Host) (base_path exe_name : string)
    (potential_subdirs : list string) : option string :=
  match potential_subdirs with
  | [] => None
  | subdir :: rest =>
      let full_path := join3 h base_path subdir exe_name in
      if os_path_exists h full_path then Some full_path
      else probe_subdirs h base_path exe_name rest
  end.

(** The outer [for base_path in program_files_paths] loop: the
    sub-directories of the base, then the direct path under the same base. *)
Fixpoint probe_bases (h : Host) (app_name exe_name : string)
    (potential_subdirs : list string) (bases : list string) : option string :=
  match bases with
  | [] => None
  | base_path :: rest =>
      match probe_subdirs h base_path exe_name potential_subdirs with
      | Some full_path => Some full_path
      | None =>
          let direct_path := join3 h base_path app_name exe_name in
          if os_path_exists h direct_path then Some direct_path
          else probe_bases h app_name exe_name potential_subdirs rest
      end
  end.

(** One [QueryValueEx] block: [Ok (Some p)] returns [p] from the function,
    [Ok None] goes on, [Raise] leaves for the outer [except Exception]. *)
Definition probe_value (h : Host) (reg : Winreg) (root : hkey_root)
    (key value_name exe_name : string) : outcome (option string) :=
  match QueryValueEx reg root key value_name with
  | RegValue dir =>
      let candidate_path := os_path_join h dir exe_name in
      Ok (if os_path_exists h candidate_path then Some candidate_path else None)
  | RegNotFound => Ok None
  | RegFailure => Raise OSError
  end.

(** The [for hkey_root in [...]] loop. *)
Fixpoint probe_registry (h : Host) (reg : Winreg) (key exe_name : string)
    (roots : list hkey_root) : outcome (option string) :=
  match roots with
  | [] => Ok None
  | root :: rest =>
      match OpenKey reg root key with
      | RegNotFound => probe_registry h reg key exe_name rest
      | RegFailure => Raise OSError
      | RegValue _ =>
          let! r := probe_value h reg root key "InstallLocation" exe_name in
          match r with
          | Some p => Ok (Some p)
          | None =>
              let! r := probe_value h reg root key "Path" exe_name in
              match r with
              | Some p => Ok (Some p)
              | None => probe_registry h reg key exe_name rest
              end
          end
      end
  end.

(** The [if winreg and registry_key:] block; its [except Exception] turns
    an exception into "not found". *)
Definition find_in_registry (h : Host) (info : WinInfo) : option string :=
  match winreg h, registry_key info with
  | Some reg, Some key =>
      match probe_registry h reg key (exe info)
              [HKEY_LOCAL_MACHINE; HKEY_CURRENT_USER] with
      | Ok (Some p) => Some p
      | Ok None | Raise _ => None
      end
  | _, _ => None
  end.

Definition find_windows (h : Host) (app_name : string) : option string :=
  match table_get app_name (app_info h) with
  | None => None
  | Some info =>
      match probe_bases h app_name (exe info) (subdirs info)
              (program_files_paths h) with
      | Some p => Some p
      | None => find_in_registry h info
      end
  end.

(** [s.endswith(suffix)] *)
Definition endswith (s suffix : string) : bool :=
  (String.length suffix <=? String.length s)%nat
  && String.eqb
       (String.substring (String.length s - String.length suffix)
          (String.length suffix) s)
       suffix.

(** The [for path in found_paths] loop. *)
Fixpoint first_bundle (h : Host) (found_paths : list string) : option string :=
  match found_paths with
  | [] => None
  | p :: rest =>
      if nonempty p && endswith p ".app" && os_path_exists h p then Some p
      else first_bundle h rest
  end.

Definition find_macos (h : Host) (app_name : string) : outcome (option string) :=
  match table_get app_name macos_app_info with
  | None => Ok None
  | Some info =>
      let system_app_path := os_path_join h "/Applications" (bundle_name info) in
      if os_path_exists h system_app_path then Ok (Some system_app_path)
      else
        let user_app_path :=
          os_path_join h (os_path_expanduser h "~/Applications") (bundle_name info) in
        if os_path_exists h user_app_path then Ok (Some user_app_path)
        else
          match bundle_id info with
          | Some id =>
              match mdfind h id with
              | Completed found_paths => Ok (first_bundle h found_paths)
              | CalledProcessError | ToolNotFound => Ok None
              | RunFailure => Raise OSError
              end
          | None => Ok None
          end
  end.

Definition _find_app_path (h : Host) (app_name : string) : outcome (option string) :=
  if String.eqb (sys_platform h) "win32" then Ok (find_windows h app_name)
  else if String.eqb (sys_platform h) "darwin" then find_macos h app_name
  else Ok None.

(** ** _auto_discover_applications *)

(** The body of the loop for one entry, given what [_find_app_path]
    returned: the entry afterwards and whether [found_count] grows. *)
Definition discover_entry (app_obj : FlightApp) (new_path : option string)
  : FlightApp * bool :=
  let original_path := path app_obj in
  if path_set new_path && negb (bool_decide (new_path = original_path)) then
    (mkFlightApp (name app_obj) new_path (default_checked app_obj), true)
  else if negb (path_set (path app_obj)) && path_set new_path then
    (mkFlightApp (name app_obj) new_path (default_checked app_obj), true)
  else (app_obj, false).

(** The [for app_obj in self.available_apps] loop.  An exception of
    [_find_app_path] ends it where it stands: the entries already visited
    keep their new paths. *)
Fixpoint discover_loop (h : Host) (apps : list FlightApp) (found_count : nat)
  : list FlightApp * outcome nat :=
  match apps with
  | [] => ([], Ok found_count)
  | app_obj :: rest =>
      match _find_app_path h (name app_obj) with
      | Raise e => (app_obj :: rest, Raise e)
      | Ok new_path =>
          let '(app_obj, found) := discover_entry app_obj new_path in
          let found_count := if found then S found_count else found_count in
          let '(rest, r) := discover_loop h rest found_count in
          (app_obj :: rest, r)
      end
  end.

Definition _auto_discover_applications (h : Host) (w : World) : World :=
  let w := show Discovering w in
  let '(apps, r) := discover_loop h (available_apps w) 0 in
  let w := set_apps apps w in
  match r with
  | Raise _ => w
  | Ok found_count =>
      let w := _save_config (sys_platform h) w in
      if (0 <? found_count)%nat then show (DiscoveryComplete found_count) w
      else show DiscoveryNothing w
  end.

(** ** Sequences of registry operations *)

Inductive action :=
| Add (app_name : string) (ok : bool) (dlg : dialog_result)
| Edit (selected : option nat) (dlg : dialog_result)
| Remove (selected : option nat) (reply : bool).

Definition step (h : Host) (a : action) (w : World) : World :=
  match a with
  | Add app_name ok dlg => _add_custom_application h app_name ok dlg w
  | Edit selected dlg => _edit_selected_application h selected dlg w
  | Remove selected reply => _delete_selected_application h selected reply w
  end.

Definition run (h : Host) (actions : list action) (w : World) : World :=
  fold_left (fun w a => step h a w) actions w.

(** The name of an entry as the duplicate checks compare it. *)
Definition folded_name (h : Host) (app : FlightApp) : string :=
  str_lower h (name app).

(** No two entries have names that are equal case-insensitively. *)
Definition names_unique (h : Host) (apps : list FlightApp) : Prop :=
  NoDup (folded_name h <$> apps).

(** ** A concrete host *)

Definition ascii_lower (c : ascii) : ascii :=
  let n := nat_of_ascii c in
  if (65 <=? n)%nat && (n <=? 90)%nat then ascii_of_nat (n + 32) else c.

Fixpoint lower (s : string) : string :=
  match s with
  | EmptyString => EmptyString
  | String c s' => String (ascii_lower c) (lower s')
  end.

(** A host with ASCII lower-casing, back-slash joins, no environment, no
    files and no registry. *)
Definition bare_host (platform : string) : Host :=
  mkHost platform lower (fun _ => None) (fun _ => false)
    (fun a b => a +:+ "\" +:+ b) (fun p => p) None (fun _ => CalledProcessError)
    (fun _ => false).

Definition empty_file : ConfigFile := mkConfigFile None Completes.

(** ** Reading the stored document *)

(** The value stored under key [k] of the document in the file, if the file
    holds a JSON object with that key. *)
Definition stored_under (k : string) (c : ConfigFile) : option pyval :=
  match content c with
  | Some (JsonText (PyDict d)) => dict_get k d
  | _ => None
  end.

(** What [json.dump] receives for a list of entries. *)
Definition apps_array (apps : list FlightApp) : pyval :=
  PyList (map to_dict apps).

(** The body of [_save_config] raises on this file: the write does not
    complete, or the file holds valid JSON that is not an object, or it
    cannot be decoded. *)
Definition save_fails (c : ConfigFile) : bool :=
  match on_write c with Completes => false | _ => true end
  || match content c with
     | Some (JsonText (PyDict _)) | Some (BadText _) | None => false
     | Some (JsonText _) | Some (Undecodable _) => true
     end.

(** ** Reading a launch sweep *)

(** The events of the loop over the rows from row [i] on, and the value of
    [launched_count] after it, counted from zero. *)
Definition sweep_events (h : Host) (checkState : nat -> bool) (i : nat)
    (apps : list FlightApp) : list event :=
  snd (fst (launch_loop h checkState i apps 0)).

Definition sweep_count (h : Host) (checkState : nat -> bool) (i : nat)
    (apps : list FlightApp) : nat :=
  snd (launch_loop h checkState i apps 0).

(** The message box that ends [_launch_selected_applications]. *)
Definition launch_report (launched_count : nat) : message :=
  if (0 <? launched_count)%nat then LaunchComplete launched_count else LaunchNothing.

(** The path of an entry can be launched: it is set and exists on disk. *)
Definition launchable (h : Host) (app : FlightApp) : bool :=
  match path app with
  | Some p => nonempty p && os_path_exists h p
  | None => false
  end.

(** A host on which exactly the paths of [present] exist and the spawn
    calls of [broken] raise. *)
Definition disk_host (platform : string) (present : list string)
    (broken : list invocation) : Host :=
  mkHost platform lower (fun _ => None)
    (fun p => existsb (String.eqb p) present)
    (fun a b => a +:+ "\" +:+ b) (fun p => p) None (fun _ => CalledProcessError)
    (fun inv =>
       existsb (fun b =>
                  match inv, b with
                  | OpenBundle p, OpenBundle q
                  | ShellExec p, ShellExec q
                  | DirectExec p, DirectExec q => String.eqb p q
                  | _, _ => false
                  end) broken).

(** ** Sample data *)

Definition sample_rows : list FlightApp :=
  [ mkFlightApp "Sim" (Some "C:\sim.exe") true;
    mkFlightApp "Gone" (Some "C:\gone.exe") false;
    mkFlightApp "Broken" (Some "C:\broken.exe") true;
    mkFlightApp "Charts" (Some "C:\charts.exe") true ].

Definition sample_checks (i : nat) : bool :=
  match i with 0 => false | _ => true end.

Definition sample_host : Host :=
  disk_host "win32" ["C:\sim.exe"; "C:\broken.exe"; "C:\charts.exe"]
    [ShellExec "C:\broken.exe"].

(** Trimming as the specification words it: a text is empty after trimming
    when it consists of white space only. *)
Definition is_space (c : ascii) : bool :=
  let n := nat_of_ascii c in
  (n =? 32)%nat || ((9 <=? n)%nat && (n <=? 13)%nat).

Fixpoint blank (s : string) : bool :=
  match s with
  | EmptyString => true
  | String c s' => is_space c && blank s'
  end.

(** ** Reading a discovery *)

(** The paths that the two file-system loops of [_find_app_path] test on
    Windows, in the order in which they test them: base by base, the
    sub-directories of the base and then the direct path under it. *)
Definition probe_order (h : Host) (app_name exe_name : string)
    (potential_subdirs bases : list string) : list string :=
  flat_map
    (fun base_path =>
       map (fun subdir => join3 h base_path subdir exe_name) potential_subdirs
       ++ [join3 h base_path app_name exe_name])
    bases.

(** The order as the specification words it: every sub-directory under
    every base first, the direct paths under the bases afterwards. *)
Definition spec_probe_order (h : Host) (app_name exe_name : string)
    (potential_subdirs bases : list string) : list string :=
  flat_map
    (fun base_path =>
       map (fun subdir => join3 h base_path subdir exe_name) potential_subdirs)
    bases
  ++ map (fun base_path => join3 h base_path app_name exe_name) bases.

Definition first_existing (h : Host) (paths : list string) : option string :=
  List.find (os_path_exists h) paths.

Definition set_winreg (reg : option Winreg) (h : Host) : Host :=
  mkHost (sys_platform h) (str_lower h) (os_environ h) (os_path_exists h)
    (os_path_join h) (os_path_expanduser h) reg (mdfind h) (popen_raises h).

(** A Windows host with the given environment, files and registry. *)
Definition windows_host (env : list (string * string)) (present : list string)
    (reg : option Winreg) : Host :=
  mkHost "win32" lower (fun var => table_get var env)
    (fun p => existsb (String.eqb p) present)
    (fun a b => a +:+ "\" +:+ b) (fun p => p) reg (fun _ => CalledProcessError)
    (fun _ => false).

(** The name has an entry in the descriptor table of the current platform. *)
Definition has_descriptor (h : Host) (app_name : string) : bool :=
  if String.eqb (sys_platform h) "win32" then
    match table_get app_name (app_info h) with Some _ => true | None => false end
  else if String.eqb (sys_platform h) "darwin" then
    match table_get app_name macos_app_info with Some _ => true | None => false end
  else false.

(** What the discovery pass makes of one entry: the path becomes what
    [_find_app_path] returned when that is a non-empty path other than the
    current one; otherwise the entry is as before. *)
Definition discovered (h : Host) (app app' : FlightApp) : Prop :=
  exists new_path,
    _find_app_path h (name app) = Ok new_path
    /\ app' = if path_set new_path && negb (bool_decide (new_path = path app))
              then mkFlightApp (name app) new_path (default_checked app)
              else app.

(** The number of positions at which the path differs. *)
Fixpoint changed_count (apps apps' : list FlightApp) : nat :=
  match apps, apps' with
  | a :: r, a' :: r' =>
      (if bool_decide (path a = path a') then 0 else 1) + changed_count r r'
  | _, _ => 0
  end.

(** The message box that ends [_auto_discover_applications]. *)
Definition discovery_report (found_count : nat) : message :=
  if (0 <? found_count)%nat then DiscoveryComplete found_count else DiscoveryNothing.

(** A registry in which every key opens and every value is [dir]. *)
Definition registry_pointing_to (dir : string) : Winreg :=
  mkWinreg (fun _ _ => RegValue tt) (fun _ _ _ => RegValue dir).

Definition two_installs_host : Host :=
  windows_host
    [("ProgramFiles", "C:\Program Files");
     ("ProgramFiles(x86)", "C:\Program Files (x86)")]
    ["C:\Program Files\Microsoft Flight Simulator\FlightSimulator.exe";
     "C:\Program Files (x86)\Steam\steamapps\common\MicrosoftFlightSimulator\FlightSimulator.exe";
     "D:\Games\FlightSimulator.exe"]
    None.

Definition charts_host : Host :=
  windows_host [("ProgramFiles", "C:\Program Files")]
    ["C:\Program Files\Navigraph\Navigraph Charts.exe"] None.

Definition charts_world : World :=
  mkWorld
    [ mkFlightApp "Microsoft Flight Simulator" (Some "D:\old\FlightSimulator.exe") true;
      FlightApp_named "Elevatex";
      FlightApp_named "Navigraph Charts";
      mkFlightApp "Volanta" (Some "C:\Volanta\Volanta.exe") false ]
    empty_file [].

(** ** Every handler of the window *)

(** One constructor per slot connected in [_connect_signals], with what the
    user answers: the two dialogs of add, the selection and dialog of edit,
    the selection and confirmation of delete, the row and new state of a
    check box, the check boxes at the time of a launch, and a discovery. *)
Inductive ui_action :=
| UAdd (app_name : string) (ok : bool) (dlg : dialog_result)
| UEdit (selected : option nat) (dlg : dialog_result)
| UDelete (selected : option nat) (reply : bool)
| UCheck (i : nat) (checked : bool)
| ULaunch (checkState : nat -> bool)
| UDiscover.

Definition ui_step (h : Host) (a : ui_action) (w : World) : World :=
  match a with
  | UAdd app_name ok dlg => _add_custom_application h app_name ok dlg w
  | UEdit selected dlg => _edit_selected_application h selected dlg w
  | UDelete selected reply => _delete_selected_application h selected reply w
  | UCheck i checked => _handle_item_checked_changed h i checked w
  | ULaunch checkState => _launch_selected_applications h checkState w
  | UDiscover => _auto_discover_applications h w
  end.

Definition ui_run (h : Host) (actions : list ui_action) (w : World) : World :=
  fold_left (fun w a => ui_step h a w) actions w.

(** The file can be written and holds, under the platform key, the array of
    the list in memory. *)
Definition persisted (pf : string) (w : World) : Prop :=
  on_write (config w) = Completes
  /\ stored_under pf (config w) = Some (apps_array (available_apps w)).


(** [subprocess.run] raises nothing but the two exceptions the source
    catches. *)
Definition mdfind_caught (h : Host) : Prop :=
  forall id, mdfind h id <> RunFailure.

(** The spawn calls among a list of events, in order. *)
Definition spawned (evs : list event) : list invocation :=
  omap (fun e => match e with Popen inv => Some inv | Show _ => None end) evs.

(** The launch-error boxes among a list of events. *)
Definition launch_errors (evs : list event) : list string :=
  omap (fun e => match e with Show (LaunchError n) => Some n | _ => None end) evs.

(** The window after a first start on a machine without a configuration
    file. *)
Definition first_start_world : World :=
  _save_config "win32" (mkWorld initial_apps empty_file []).

Definition sample_session : list ui_action :=
  [ UAdd "Volanta" true (Accepted "Volanta" "C:\Volanta\Volanta.exe");
    UCheck 3 true;
    UEdit (Some 1) (Accepted "ElevateX" "C:\ElevateX\Elevatex.exe");
    ULaunch (fun i => (i =? 3)%nat);
    UDiscover;
    UDelete (Some 2) true ].

(** A macOS host with the given bundles on disk and the given answer of
    [mdfind]. *)
Definition mac_host (present : list string) (answer : run_answer) : Host :=
  mkHost "darwin" lower (fun _ => None)
    (fun p => existsb (String.eqb p) present)
    (fun a b => a +:+ "/" +:+ b) (fun p => p) None (fun _ => answer)
    (fun _ => false).

(** What a discovery pass keeps of an entry: its name and flag; a path that
    was set stays set; and a path that changed is one that exists on disk. *)
Definition rediscovered (h : Host) (app app' : FlightApp) : Prop :=
  name app' = name app
  /\ default_checked app' = default_checked app
  /\ (path_set (path app) = true -> path_set (path app') = true)
  /\ (path app' = path app
      \/ exists p, path app' = Some p /\ os_path_exists h p = true).

(** The directories the registry names for a key, in the order in which
    [_find_app_path] asks for them: per root, [InstallLocation] and then
    [Path], under the roots whose key opens. *)
Definition registry_dirs (reg : Winreg) (key : string) (roots : list hkey_root)
  : list string :=
  flat_map
    (fun root =>
       match OpenKey reg root key with
       | RegValue _ =>
           (match QueryValueEx reg root key "InstallLocation" with
            | RegValue dir => [dir]
            | _ => []
            end)
           ++ (match QueryValueEx reg root key "Path" with
               | RegValue dir => [dir]
               | _ => []
               end)
       | _ => []
       end)
    roots.

(** No registry call for the key ends in an exception other than
    [FileNotFoundError]. *)
Definition registry_quiet (reg : Winreg) (key : string) : Prop :=
  forall root,
    OpenKey reg root key <> RegFailure
    /\ (forall value_name, QueryValueEx reg root key value_name <> RegFailure).

(** A registry in which the key opens under the user root only and holds
    the given [Path] value there. *)
Definition user_registry (dir : string) : Winreg :=
  mkWinreg
    (fun root _ =>
       match root with
       | HKEY_LOCAL_MACHINE => RegNotFound
       | HKEY_CURRENT_USER => RegValue tt
       end)
    (fun _ _ value_name =>
       if String.eqb value_name "Path" then RegValue dir else RegNotFound).

(** The [Popen] call a row is due: the invocation of the platform for the
    path of a checked entry whose path is set, non-empty and on disk. *)
Definition launch_target (h : Host) (checked : bool) (app : FlightApp)
  : option invocation :=
  if checked && launchable h app then invocation_for h <$> path app else None.

(** The calls due for a list of rows, in list order. *)
Definition launch_targets (h : Host) (checkState : nat -> bool)
    (apps : list FlightApp) : list invocation :=
  omap id (imap (fun j app => launch_target h (checkState j) app) apps).

(** * Properties *)

(** ** Saving never touches the entry list *)

Lemma save_config_apps pf w :
  available_apps (_save_config pf w) = available_apps w.
Proof.
  unfold _save_config.
  destruct (save_run pf (available_apps w) (config w)) as [c [[]|e]]; reflexivity.
Qed.

(** The three ways the body of [_save_config] can end: it completes, with
    the platform's array replaced in the former document; it raises with the
    file as it was; or it raises in [json.dump], with the remains of the
    write in the file. *)
Lemma save_run_cases pf apps c :
  (exists d,
     read_existing c = Ok (PyDict d) /\ on_write c = Completes
     /\ save_run pf apps c
        = (mkConfigFile (Some (JsonText (PyDict (dict_set pf (apps_array apps) d))))
             Completes, Ok tt))
  \/ (exists e, save_run pf apps c = (c, Raise e))
  \/ (exists d remains,
        read_existing c = Ok (PyDict d) /\ on_write c = DumpRaises remains
        /\ save_run pf apps c
           = (mkConfigFile (Some remains) (DumpRaises remains), Raise OSError)).
Proof.
  unfold save_run, write_json.
  destruct (read_existing c) as [v|e] eqn:R; simpl; [|right; left; by eexists].
  destruct v; simpl; try (right; left; by eexists).
  destruct (on_write c) as [| |remains] eqn:W.
  - left. by exists kvs.
  - right. left. by eexists.
  - right. right. by exists kvs, remains.
Qed.


(** [_save_config] leaves the list alone and shows nothing but, possibly,
    the save error. *)
Lemma save_config_shape pf w :
  exists c' saved,
    (saved = [] \/ saved = [Show ConfigSaveError])
    /\ _save_config pf w = mkWorld (available_apps w) c' (trace w ++ saved).
Proof.
  unfold _save_config.
  destruct (save_run pf (available_apps w) (config w)) as [c [[]|e]].
  - exists c, []. split; [by left|]. unfold set_config. by rewrite app_nil_r.
  - exists c, [Show ConfigSaveError]. split; [by right|]. reflexivity.
Qed.

(** ** Name uniqueness (C1) *)

Section Uniqueness.
Variable h : Host.

Lemma name_in_use_spec n apps :
  name_in_use h n apps = true <-> str_lower h n ∈ folded_name h <$> apps.
Proof.
  unfold name_in_use. rewrite existsb_exists, list_elem_of_fmap.
  split.
  - intros (a & Ha & Heq). apply String.eqb_eq in Heq.
    exists a. split; [symmetry; exact Heq | by apply list_elem_of_In].
  - intros (a & Heq & Ha). exists a.
    split; [by apply list_elem_of_In | apply String.eqb_eq; symmetry; exact Heq].
Qed.

Lemma name_free_spec n apps :
  name_in_use h n apps = false <-> str_lower h n ∉ folded_name h <$> apps.
Proof.
  rewrite <- name_in_use_spec. destruct (name_in_use h n apps); split; congruence.
Qed.

(** [name_in_use] looks at the folded name only. *)
Lemma name_in_use_folded n m apps :
  str_lower h n = str_lower h m ->
  name_in_use h n apps = name_in_use h m apps.
Proof. intros E. unfold name_in_use. by rewrite E. Qed.

Lemma unique_append apps app :
  names_unique h apps ->
  name_in_use h (name app) apps = false ->
  names_unique h (apps ++ [app]).
Proof.
  unfold names_unique. intros U F. apply name_free_spec in F.
  rewrite fmap_app. apply NoDup_app. split; [exact U|]. split.
  - intros x Hx Hin. apply list_elem_of_singleton in Hin. subst x. by apply F.
  - apply NoDup_singleton.
Qed.

Lemma unique_delete (i : nat) (apps : list FlightApp) :
  names_unique h apps -> names_unique h (delete i apps).
Proof.
  unfold names_unique. intros U.
  eapply sublist_NoDup; [exact U|].
  apply fmap_sublist, sublist_delete.
Qed.

Lemma unique_replace (i : nat) (apps : list FlightApp) old app :
  apps !! i = Some old ->
  names_unique h apps ->
  name_in_use h (name app) (delete i apps) = false ->
  names_unique h (<[i := app]> apps).
Proof.
  unfold names_unique. intros L U F. apply name_free_spec in F.
  pose proof (lookup_lt_Some _ _ _ L) as Hlt.
  rewrite insert_take_drop by exact Hlt.
  rewrite delete_take_drop in F.
  rewrite <- (take_drop_middle apps i old L) in U.
  rewrite fmap_app, fmap_cons in U |- *. rewrite fmap_app in F.
  apply NoDup_app in U as (U1 & U2 & U3).
  apply NoDup_cons in U3 as (_ & U3).
  apply NoDup_app. split; [exact U1|]. split.
  - intros x Hx Hin. apply elem_of_cons in Hin as [->|Hin].
    + apply F. apply elem_of_app. by left.
    + apply (U2 x Hx). by right.
  - apply NoDup_cons. split; [|exact U3].
    intros Hin. apply F. apply elem_of_app. by right.
Qed.

(** Renaming an entry to a name with the same folded form keeps the
    folded names as they are. *)
Lemma folded_replace_same (i : nat) (apps : list FlightApp) old app :
  apps !! i = Some old ->
  folded_name h app = folded_name h old ->
  folded_name h <$> <[i := app]> apps = folded_name h <$> apps.
Proof.
  intros L E. rewrite list_fmap_insert, E.
  apply list_insert_id. by rewrite list_lookup_fmap, L.
Qed.

(** In a registry with unique names, the other entries do not carry the
    folded name of entry [i]. *)
Lemma unique_others_differ (i : nat) (apps : list FlightApp) old :
  apps !! i = Some old ->
  names_unique h apps ->
  name_in_use h (name old) (delete i apps) = false.
Proof.
  unfold names_unique. intros L U. apply name_free_spec.
  rewrite delete_take_drop.
  rewrite <- (take_drop_middle apps i old L) in U.
  rewrite fmap_app, fmap_cons in U. rewrite fmap_app.
  apply NoDup_app in U as (U1 & U2 & U3).
  apply NoDup_cons in U3 as (U3 & _).
  intros Hin. apply elem_of_app in Hin as [Hin|Hin].
  - apply (U2 _ Hin). by left.
  - by apply U3.
Qed.

Lemma add_unique app_name ok dlg w :
  names_unique h (available_apps w) ->
  names_unique h (available_apps (_add_custom_application h app_name ok dlg w)).
Proof.
  intros U. unfold _add_custom_application.
  destruct (ok && nonempty app_name).
  - destruct (name_in_use h app_name (available_apps w)) eqn:Huse; [exact U|].
    destruct dlg as [|new_name new_path]; [exact U|].
    destruct (negb (nonempty new_path)); [exact U|].
    destruct (negb (String.eqb (str_lower h new_name) (str_lower h app_name)))
      eqn:Hsame; simpl.
    + destruct (name_in_use h new_name (available_apps w)) eqn:Huse'; [exact U|].
      simpl. rewrite save_config_apps. simpl. by apply unique_append.
    + rewrite save_config_apps. simpl. apply unique_append; [exact U|]. simpl.
      apply negb_false_iff, String.eqb_eq in Hsame.
      by rewrite (name_in_use_folded _ _ _ Hsame).
  - destruct (ok && negb (nonempty app_name)); exact U.
Qed.

Lemma edit_unique selected dlg w :
  names_unique h (available_apps w) ->
  names_unique h (available_apps (_edit_selected_application h selected dlg w)).
Proof.
  intros U. unfold _edit_selected_application.
  destruct selected as [i|]; [|exact U].
  destruct (available_apps w !! i) as [old|] eqn:L; [|exact U].
  destruct dlg as [|new_name new_path]; [exact U|].
  destruct (negb (nonempty new_name)); [exact U|].
  destruct (negb (nonempty new_path)); [exact U|].
  destruct (negb (String.eqb (str_lower h new_name) (str_lower h (name old))))
    eqn:Hsame; simpl.
  - destruct (name_in_use h new_name (delete i (available_apps w))) eqn:Huse;
      [exact U|].
    simpl. rewrite save_config_apps. simpl.
    by eapply unique_replace.
  - rewrite save_config_apps. simpl.
    apply negb_false_iff, String.eqb_eq in Hsame.
    unfold names_unique. by erewrite folded_replace_same.
Qed.

Lemma remove_unique selected reply w :
  names_unique h (available_apps w) ->
  names_unique h (available_apps (_delete_selected_application h selected reply w)).
Proof.
  intros U. unfold _delete_selected_application.
  destruct selected as [i|]; [|exact U].
  destruct (available_apps w !! i) as [old|] eqn:L; [|exact U].
  destruct reply; [|exact U].
  simpl. rewrite save_config_apps. simpl. by apply unique_delete.
Qed.

Lemma run_unique actions : forall w,
  names_unique h (available_apps w) ->
  names_unique h (available_apps (run h actions w)).
Proof.
  induction actions as [|a actions IH]; intros w U; [exact U|].
  simpl. apply IH. destruct a; simpl.
  - by apply add_unique.
  - by apply edit_unique.
  - by apply remove_unique.
Qed.

(** An add whose final name is in use changes neither list nor file. *)
Lemma add_collision_rejected app_name ok new_name new_path w :
  name_in_use h new_name (available_apps w) = true ->
  let w' := _add_custom_application h app_name ok (Accepted new_name new_path) w in
  available_apps w' = available_apps w /\ config w' = config w.
Proof.
  intros Huse. unfold _add_custom_application.
  destruct (ok && nonempty app_name).
  - destruct (name_in_use h app_name (available_apps w)) eqn:Huse0; [done|].
    destruct (negb (nonempty new_path)); [done|].
    destruct (negb (String.eqb (str_lower h new_name) (str_lower h app_name)))
      eqn:Hsame; simpl.
    + by rewrite Huse.
    + apply negb_false_iff, String.eqb_eq in Hsame.
      rewrite (name_in_use_folded _ _ _ Hsame) in Huse. congruence.
  - destruct (ok && negb (nonempty app_name)); done.
Qed.

(** A rename to the name of another entry changes neither list nor file. *)
Lemma edit_collision_rejected i new_name new_path w :
  names_unique h (available_apps w) ->
  name_in_use h new_name (delete i (available_apps w)) = true ->
  let w' := _edit_selected_application h (Some i) (Accepted new_name new_path) w in
  available_apps w' = available_apps w /\ config w' = config w.
Proof.
  intros U Huse. unfold _edit_selected_application.
  destruct (available_apps w !! i) as [old|] eqn:L; [|done].
  destruct (negb (nonempty new_name)); [done|].
  destruct (negb (nonempty new_path)); [done|].
  destruct (negb (String.eqb (str_lower h new_name) (str_lower h (name old))))
    eqn:Hsame; simpl.
  - by rewrite Huse.
  - apply negb_false_iff, String.eqb_eq in Hsame.
    rewrite (name_in_use_folded _ _ _ Hsame) in Huse.
    rewrite (unique_others_differ _ _ _ L U) in Huse. congruence.
Qed.
End Uniqueness.

(** C1.  Starting from a registry whose names are unique
    case-insensitively, every sequence of add, edit and remove operations
    leaves the names unique; and in every state so reached, an add whose
    final name is already in use, or a rename to the name of another entry,
    changes neither the entry list nor the configuration file. *)
Theorem registry_names_stay_unique (h : Host) (w : World) :
  names_unique h (available_apps w) ->
  forall actions,
    let w1 := run h actions w in
    names_unique h (available_apps w1)
    /\ (forall app_name ok new_name new_path,
          name_in_use h new_name (available_apps w1) = true ->
          let w2 :=
            _add_custom_application h app_name ok (Accepted new_name new_path) w1 in
          available_apps w2 = available_apps w1 /\ config w2 = config w1)
    /\ (forall i new_name new_path,
          name_in_use h new_name (delete i (available_apps w1)) = true ->
          let w2 :=
            _edit_selected_application h (Some i) (Accepted new_name new_path) w1 in
          available_apps w2 = available_apps w1 /\ config w2 = config w1).
Proof.
  intros U actions w1.
  assert (U1 : names_unique h (available_apps w1)) by by apply run_unique.
  split; [exact U1|]. split.
  - intros. by apply add_collision_rejected.
  - intros. by apply edit_collision_rejected.
Qed.

Lemma initial_apps_unique : names_unique (bare_host "win32") initial_apps.
Proof.
  unfold names_unique. refine (bool_decide_unpack _ _). vm_compute. exact I.
Qed.

Lemma registry_names_stay_unique_witness :
  let h := bare_host "win32" in
  let w := mkWorld initial_apps empty_file [] in
  let w1 :=
    run h [ Add "Volanta" true (Accepted "Volanta" "C:\Volanta\Volanta.exe");
            Add "VOLANTA" true (Accepted "VOLANTA" "C:\v.exe");
            Edit (Some 1) (Accepted "ElevateX" "C:\ElevateX\Elevatex.exe");
            Edit (Some 3) (Accepted "elevatex" "C:\v.exe");
            Remove (Some 0) true ] w in
  names_unique h (available_apps w1)
  /\ name <$> available_apps w1 = ["ElevateX"; "Navigraph Charts"; "Volanta"].
Proof.
  split.
  - exact (proj1 (registry_names_stay_unique (bare_host "win32")
                    (mkWorld initial_apps empty_file []) initial_apps_unique _)).
  - vm_compute. reflexivity.
Defined.

(** ** The configuration document (C3, C4) *)

Lemma dict_get_set_same k v d : dict_get k (dict_set k v d) = Some v.
Proof.
  induction d as [|[k' v'] d IH]; simpl.
  - by rewrite String.eqb_refl.
  - destruct (String.eqb k k') eqn:E; simpl; rewrite E; [reflexivity | exact IH].
Qed.

Lemma dict_get_set_other k k' v d :
  k' <> k -> dict_get k' (dict_set k v d) = dict_get k' d.
Proof.
  intros Hne. induction d as [|[k0 v0] d IH]; simpl.
  - destruct (String.eqb k' k) eqn:E; [|reflexivity].
    apply String.eqb_eq in E. contradiction.
  - destruct (String.eqb k k0) eqn:E; simpl.
    + apply String.eqb_eq in E. subst k0.
      destruct (String.eqb k' k) eqn:E'; [|reflexivity].
      apply String.eqb_eq in E'. contradiction.
    + destruct (String.eqb k' k0); [reflexivity | exact IH].
Qed.

(** When the body of [_save_config] completes, the file holds the former
    document (an empty one if there was none, or none parseable) with the
    current platform's array replaced. *)
Lemma save_body_ok pf apps c c' :
  save_body pf apps c = Ok c' ->
  exists d,
    read_existing c = Ok (PyDict d)
    /\ c' = mkConfigFile (Some (JsonText (PyDict (dict_set pf (apps_array apps) d)))) Completes.
Proof.
  unfold save_body. intros H.
  destruct (save_run_cases pf apps c)
    as [(d & R & _ & S) | [(e & S) | (d & remains & _ & _ & S)]];
    rewrite S in H; try discriminate.
  injection H as <-. by exists d.
Qed.

Lemma from_dict_to_dict app : from_dict (to_dict app) = Decoded app.
Proof. by destruct app as [n [p|] c]. Qed.

Lemma from_dicts_to_dict apps : from_dicts (map to_dict apps) = Decoded apps.
Proof.
  induction apps as [|a apps IH]; [reflexivity|].
  simpl map. cbn [from_dicts]. rewrite from_dict_to_dict. simpl.
  rewrite IH. reflexivity.
Qed.

(** What holds of the frame: a save that completes, or that raises before
    [json.dump], leaves the value under every key other than the current
    platform's as it was; on a file that holds a JSON object the completed
    save writes that object back with only the current platform's array
    replaced; and text that [json.load] rejects with [JSONDecodeError] is
    saved over exactly as an empty document or an absent file is. *)
Lemma save_config_frame (pf : string) (w : World) :
  (forall B, B <> pf ->
     (forall remains, on_write (config w) <> DumpRaises remains) ->
     stored_under B (config (_save_config pf w)) = stored_under B (config w))
  /\ (forall d,
        content (config w) = Some (JsonText (PyDict d)) ->
        on_write (config w) = Completes ->
        _save_config pf w =
          set_config
            (mkConfigFile
               (Some (JsonText (PyDict (dict_set pf (apps_array (available_apps w)) d))))
               Completes) w)
  /\ (forall raw,
        content (config w) = Some (BadText raw) ->
        on_write (config w) = Completes ->
        let saved :=
          set_config
            (mkConfigFile
               (Some (JsonText (PyDict [(pf, apps_array (available_apps w))])))
               Completes) w in
        _save_config pf w = saved
        /\ _save_config pf (set_config (mkConfigFile None Completes) w) = saved
        /\ _save_config pf
             (set_config (mkConfigFile (Some (JsonText (PyDict []))) Completes) w) = saved).
Proof.
  split; [|split].
  - intros B HB Hdump. unfold _save_config.
    destruct (save_run_cases pf (available_apps w) (config w))
      as [(d & R & _ & S) | [(e & S) | (d & remains & _ & W & _)]];
      [| |by destruct (Hdump remains)]; rewrite S; [|reflexivity].
    simpl. unfold stored_under. simpl. rewrite dict_get_set_other by exact HB.
    unfold read_existing in R.
    destruct (content (config w)) as [[v|raw|raw]|]; simpl in R; try discriminate.
    + injection R as ->. reflexivity.
    + injection R as <-. reflexivity.
    + injection R as <-. reflexivity.
  - intros d C W. unfold _save_config, save_run, read_existing, write_json.
    rewrite C, W. reflexivity.
  - intros raw C W. simpl.
    unfold _save_config, save_run, read_existing, write_json. simpl.
    rewrite C, W. auto.
Qed.

Example save_config_frame_sample :
  let other :=
    PyList [to_dict (mkFlightApp "X-Plane" (Some "/Applications/X-Plane.app") true)] in
  let w :=
    mkWorld initial_apps
      (mkConfigFile (Some (JsonText (PyDict [("darwin", other); ("win32", PyList [])])))
         Completes) [] in
  let w' := mkWorld initial_apps (mkConfigFile (Some (BadText "{oops")) Completes) [] in
  stored_under "darwin" (config (_save_config "win32" w)) = Some other
  /\ stored_under "win32" (config (_save_config "win32" w))
     = Some (apps_array initial_apps)
  /\ stored_under "win32" (config (_save_config "win32" w'))
     = Some (apps_array initial_apps).
Proof. repeat split. Qed.

(** A save that raises in [json.dump] does not keep the frame: the file has
    been truncated by [open], and the other platforms' entries are gone. *)
Example truncated_save_loses_other_platforms :
  let other := PyList [to_dict (FlightApp_named "X-Plane")] in
  let c :=
    mkConfigFile (Some (JsonText (PyDict [("darwin", other)])))
      (DumpRaises (BadText "{")) in
  let w' := _save_config "win32" (mkWorld initial_apps c []) in
  stored_under "darwin" c = Some other
  /\ stored_under "darwin" (config w') = None
  /\ trace w' = [Show ConfigSaveError].
Proof. repeat split. Qed.

(** C3, at a file that is not valid JSON because its bytes cannot be decoded
    as text: [json.load] raises [UnicodeDecodeError], which the inner
    [except json.JSONDecodeError] of [_save_config] does not catch; the save
    fails with the save-error box and the file is left as it was, instead of
    being treated as an empty document and saved over. *)
Theorem save_over_undecodable_file_fails (pf raw : string)
    (apps : list FlightApp) (tr : list event) :
  let c := mkConfigFile (Some (Undecodable raw)) Completes in
  _save_config pf (mkWorld apps c tr)
  = mkWorld apps c (tr ++ [Show ConfigSaveError])
  /\ _save_config pf (mkWorld apps (mkConfigFile (Some (BadText raw)) Completes) tr)
     = mkWorld apps
         (mkConfigFile (Some (JsonText (PyDict [(pf, apps_array apps)]))) Completes) tr.
Proof. split; reflexivity. Qed.

(** What [_load_config] installs from a file that holds the array of a
    non-empty list of entries under the current platform. *)
Lemma load_body_stored pf apps d :
  apps <> [] ->
  load_body pf (JsonText (PyDict (dict_set pf (apps_array apps) d)))
  = Decoded (Some apps).
Proof.
  intros Hne. unfold load_body. simpl. rewrite dict_get_set_same.
  unfold apps_array. simpl.
  destruct apps as [|a apps]; [contradiction|].
  change (truthy (PyList (map to_dict (a :: apps)))) with true. cbn iota.
  rewrite from_dicts_to_dict. reflexivity.
Qed.

(** C4 as stated fails on the empty list: after the entries have all been
    removed and the empty list saved, the next start installs the seed list,
    not the empty list. *)
Lemma empty_registry_not_reloaded :
  let w := mkWorld [] empty_file [] in
  let saved := _save_config "win32" w in
  stored_under "win32" (config saved) = Some (apps_array [])
  /\ trace saved = []
  /\ (available_apps <$> MainWindow_init "win32" (config saved)) = Some initial_apps
  /\ (available_apps <$> MainWindow_init "win32" (config saved)) <> Some [].
Proof. vm_compute. repeat split; discriminate. Qed.

(** C4, amended.  For every non-empty list of entries whose save completes,
    loading from the same file for the same platform key installs an equal
    list, in the same order, each entry with its name, path and checked
    flag, whatever list was in memory before the load; the file and the
    trace are left as they are. *)
Theorem save_load_roundtrip (pf : string) (apps : list FlightApp)
    (c c' : ConfigFile) :
  apps <> [] ->
  save_body pf apps c = Ok c' ->
  forall in_memory tr,
    _load_config pf (mkWorld in_memory c' tr) = Some (mkWorld apps c' tr).
Proof.
  intros Hne S in_memory tr.
  apply save_body_ok in S as (d & _ & ->).
  unfold _load_config. simpl. by rewrite load_body_stored.
Qed.

Lemma save_load_roundtrip_witness :
  let apps :=
    [ mkFlightApp "Navigraph Charts" (Some "C:\Navigraph\Navigraph Charts.exe") true;
      mkFlightApp "ElevateX" None false;
      mkFlightApp "Volanta" (Some "") true ] in
  let c := mkConfigFile (Some (JsonText (PyDict [("darwin", PyList [])]))) Completes in
  exists c',
    save_body "win32" apps c = Ok c'
    /\ MainWindow_init "win32" c' = Some (mkWorld apps c' []).
Proof.
  intros apps c. eexists. split; [vm_compute; reflexivity|].
  apply (save_load_roundtrip "win32" apps c); [discriminate | vm_compute; reflexivity].
Defined.

(** ** Start-up (C2, C10) *)

(** First case: a document holding a non-empty array of entries under the
    current platform replaces the list; nothing is written or shown. *)
Lemma load_installs_stored pf d xs apps w :
  content (config w) = Some (JsonText (PyDict d)) ->
  dict_get pf d = Some (PyList xs) ->
  xs <> [] ->
  from_dicts xs = Decoded apps ->
  _load_config pf w = Some (set_apps apps w).
Proof.
  intros C G Hne F. unfold _load_config, load_body. rewrite C. simpl. rewrite G.
  destruct xs as [|x xs]; [contradiction|].
  change (truthy (PyList (x :: xs))) with true. cbn iota.
  unfold from_dict_each. rewrite F. reflexivity.
Qed.

(** Second case: no file, no array under the current platform, or an empty
    one: the list in memory is kept and saved at once. *)
Lemma load_keeps_and_saves pf w :
  content (config w) = None
  \/ (exists d, content (config w) = Some (JsonText (PyDict d))
               /\ (dict_get pf d = None \/ dict_get pf d = Some (PyList []))) ->
  _load_config pf w = Some (_save_config pf w).
Proof.
  unfold _load_config, load_body.
  intros [C | (d & C & [G|G])]; rewrite C; simpl; [reflexivity| |];
    rewrite G; reflexivity.
Qed.

(** Third case, invalid JSON: reset, warning, and the reset list written
    over the file when the write completes. *)
Lemma load_bad_text_resets pf raw wr tr in_memory :
  _load_config pf (mkWorld in_memory (mkConfigFile (Some (BadText raw)) wr) tr)
  = Some (match wr with
          | Completes =>
              mkWorld reset_apps
                (mkConfigFile
                   (Some (JsonText (PyDict [(pf, apps_array reset_apps)]))) Completes)
                (tr ++ [Show ConfigErrorJSON])
          | OpenRaises =>
              mkWorld reset_apps (mkConfigFile (Some (BadText raw)) OpenRaises)
                (tr ++ [Show ConfigErrorJSON; Show ConfigSaveError])
          | DumpRaises remains =>
              mkWorld reset_apps (mkConfigFile (Some remains) (DumpRaises remains))
                (tr ++ [Show ConfigErrorJSON; Show ConfigSaveError])
          end).
Proof.
  unfold _load_config, load_body. simpl.
  unfold _save_config, save_run, read_existing, write_json. simpl.
  destruct wr; simpl; [reflexivity| |];
    unfold show; simpl; by rewrite <- app_assoc.
Qed.

(** C2, at a file that holds valid JSON which is not an object (here the
    text [[]]): [_load_config] takes its [except Exception] branch, resets
    the list and warns, but the [_save_config] it then calls fails on the
    item assignment, shows a save error and leaves the file as it was: the
    seed state is not written back. *)
Theorem load_non_object_document_not_healed :
  let c := mkConfigFile (Some (JsonText (PyList []))) Completes in
  MainWindow_init "win32" c
  = Some (mkWorld reset_apps c [Show ConfigErrorUnexpected; Show ConfigSaveError]).
Proof. reflexivity. Qed.

(** C10.  The seed list of a fresh start and the seed list installed after
    a JSON parse error differ in their second entry, "Elevatex" against
    "ElevateX"; the Windows descriptor table has the key "ElevateX" and not
    the key "Elevatex", so Windows discovery finds nothing for the entry of
    the fresh-start list whatever the host holds. *)
Theorem seed_lists_differ :
  initial_apps <> reset_apps
  /\ name <$> initial_apps = ["Microsoft Flight Simulator"; "Elevatex"; "Navigraph Charts"]
  /\ name <$> reset_apps = ["Microsoft Flight Simulator"; "ElevateX"; "Navigraph Charts"]
  /\ (forall pf wr,
        available_apps <$> MainWindow_init pf (mkConfigFile None wr)
        = Some initial_apps)
  /\ (forall pf raw wr,
        available_apps <$> MainWindow_init pf (mkConfigFile (Some (BadText raw)) wr)
        = Some reset_apps)
  /\ (forall h,
        (exists info, table_get "ElevateX" (app_info h) = Some info)
        /\ table_get "Elevatex" (app_info h) = None
        /\ find_windows h "Elevatex" = None).
Proof.
  split; [discriminate|]. split; [reflexivity|]. split; [reflexivity|].
  split; [|split].
  - intros pf wr. unfold MainWindow_init, _load_config. simpl.
    by rewrite save_config_apps.
  - intros pf raw wr. unfold MainWindow_init.
    rewrite load_bad_text_resets. by destruct wr.
  - intros h. split; [by eexists|]. split; reflexivity.
Qed.

(** ** A save that fails (C9) *)

(** C9 as stated fails: with a configuration file that cannot be written,
    an edit shows the save error, yet the entry stays edited in memory and
    the edit is reported as done. *)
Lemma failed_save_does_not_undo_edit :
  let h := bare_host "win32" in
  let w := mkWorld initial_apps (mkConfigFile None OpenRaises) [] in
  let w' :=
    _edit_selected_application h (Some 1)
      (Accepted "ElevateX" "C:\ElevateX\Elevatex.exe") w in
  trace w' = [Show ConfigSaveError; Show (EditComplete "ElevateX")]
  /\ available_apps w' !! 1
     = Some (mkFlightApp "ElevateX" (Some "C:\ElevateX\Elevatex.exe") false)
  /\ available_apps w' <> available_apps w.
Proof. vm_compute. repeat split; discriminate. Qed.

(** A failing save shows the error and leaves the list as it is; what it
    leaves in the file depends on where it failed. *)
Lemma save_config_fails pf w :
  save_fails (config w) = true ->
  exists c', _save_config pf w = show ConfigSaveError (set_config c' w).
Proof.
  unfold save_fails, _save_config. intros F.
  destruct (save_run_cases pf (available_apps w) (config w))
    as [(d & R & W & S) | [(e & S) | (d & remains & _ & _ & S)]];
    rewrite S; [|by eexists..].
  rewrite W in F. simpl in F. unfold read_existing in R.
  destruct (content (config w)) as [[v|raw|raw]|]; simpl in *; try discriminate.
  destruct v; discriminate.
Qed.


(** C9, amended.  When the save that an operation triggers fails, the error
    is shown, but the operation is not undone: the list in memory holds the
    edited, added or removed entry, and the operation is reported as
    complete. *)
Theorem failed_save_keeps_mutation (h : Host) (w : World) :
  save_fails (config w) = true ->
  (forall i app_to_edit new_name new_path,
     available_apps w !! i = Some app_to_edit ->
     nonempty new_name = true ->
     nonempty new_path = true ->
     name_in_use h new_name (delete i (available_apps w)) = false ->
     let edited :=
       mkFlightApp new_name (Some new_path) (default_checked app_to_edit) in
     let w' :=
       _edit_selected_application h (Some i) (Accepted new_name new_path) w in
     available_apps w' = <[i := edited]> (available_apps w)
     /\ trace w' = trace w ++ [Show ConfigSaveError; Show (EditComplete new_name)])
  /\ (forall app_name new_name new_path,
        nonempty app_name = true ->
        name_in_use h app_name (available_apps w) = false ->
        nonempty new_path = true ->
        name_in_use h new_name (available_apps w) = false ->
        let w' :=
          _add_custom_application h app_name true (Accepted new_name new_path) w in
        available_apps w'
        = available_apps w ++ [mkFlightApp new_name (Some new_path) false]
        /\ trace w' = trace w ++ [Show ConfigSaveError; Show (AppAdded new_name)])
  /\ (forall i app_to_delete,
        available_apps w !! i = Some app_to_delete ->
        let w' := _delete_selected_application h (Some i) true w in
        available_apps w' = delete i (available_apps w)
        /\ trace w'
           = trace w ++ [Show ConfigSaveError;
                         Show (DeleteComplete (name app_to_delete))]).
Proof.
  intros F.
  assert (S : forall apps m,
            let w' := show m (_save_config (sys_platform h) (set_apps apps w)) in
            available_apps w' = apps
            /\ trace w' = trace w ++ [Show ConfigSaveError; Show m]).
  { intros apps m. destruct (save_config_fails (sys_platform h) (set_apps apps w) F)
      as [c' E].
    simpl. rewrite E. simpl. split; [reflexivity|]. by rewrite <- app_assoc. }
  split; [|split].
  - intros i app_to_edit new_name new_path L Hn Hp Huse edited w'.
    unfold w', _edit_selected_application.
    rewrite L, Hn, Hp, Huse. simpl. rewrite andb_false_r. apply S.
  - intros app_name new_name new_path Hn Hfree Hp Hfree' w'.
    unfold w', _add_custom_application.
    rewrite Hn, Hfree, Hp, Hfree'. simpl. rewrite andb_false_r. apply S.
  - intros i app_to_delete L w'. unfold w', _delete_selected_application.
    rewrite L. apply S.
Qed.

Lemma failed_save_keeps_mutation_witness :
  let h := bare_host "win32" in
  let w :=
    mkWorld initial_apps (mkConfigFile (Some (JsonText (PyInt 7))) Completes) [] in
  let w1 :=
    _edit_selected_application h (Some 2) (Accepted "Charts" "C:\Charts.exe") w in
  let w2 :=
    _delete_selected_application h (Some 0) true
      (mkWorld initial_apps (mkConfigFile None (DumpRaises (BadText "{"))) []) in
  (available_apps w1
   = [ mkFlightApp "Microsoft Flight Simulator" None true;
       FlightApp_named "Elevatex";
       mkFlightApp "Charts" (Some "C:\Charts.exe") false ]
   /\ trace w1 = [Show ConfigSaveError; Show (EditComplete "Charts")])
  /\ (available_apps w2
      = [FlightApp_named "Elevatex"; FlightApp_named "Navigraph Charts"]
      /\ trace w2
         = [Show ConfigSaveError; Show (DeleteComplete "Microsoft Flight Simulator")]).
Proof.
  intros h w w1 w2. split.
  - exact (proj1 (failed_save_keeps_mutation h w eq_refl)
             2 (FlightApp_named "Navigraph Charts") "Charts" "C:\Charts.exe"
             eq_refl eq_refl eq_refl eq_refl).
  - exact (proj2 (proj2 (failed_save_keeps_mutation h
                           (mkWorld initial_apps
                              (mkConfigFile None (DumpRaises (BadText "{"))) [])
                           eq_refl))
             0 _ eq_refl).
Defined.

(** ** The launch sweep (C5) *)

Section Launch.
Variable h : Host.
Variable checkState : nat -> bool.

(** The counter is threaded through the loop as a plain sum. *)
Lemma launch_loop_count apps : forall i n,
  launch_loop h checkState i apps n
  = (fst (fst (launch_loop h checkState i apps 0)),
     sweep_events h checkState i apps,
     n + sweep_count h checkState i apps).
Proof.
  unfold sweep_events, sweep_count.
  induction apps as [|a apps IH]; intros i n; simpl.
  - by rewrite Nat.add_0_r.
  - destruct (launch_row h (checkState i) _) as [evs launched].
    rewrite (IH (S i) (if launched then S n else n)).
    rewrite (IH (S i) (if launched then 1 else 0)).
    destruct (launch_loop h checkState (S i) apps 0) as [[rest evs'] k]. simpl.
    destruct launched; f_equal; lia.
Qed.

Lemma sweep_events_cons i a apps :
  sweep_events h checkState i (a :: apps)
  = fst (launch_row h (checkState i) a)
    ++ sweep_events h checkState (S i) apps.
Proof.
  unfold sweep_events. simpl.
  assert (E : launch_row h (checkState i)
                (mkFlightApp (name a) (path a) (checkState i))
              = launch_row h (checkState i) a) by reflexivity.
  rewrite E. destruct (launch_row h (checkState i) a) as [evs launched].
  rewrite launch_loop_count. reflexivity.
Qed.

Lemma sweep_count_cons i a apps :
  sweep_count h checkState i (a :: apps)
  = (if snd (launch_row h (checkState i) a) then 1 else 0)
    + sweep_count h checkState (S i) apps.
Proof.
  unfold sweep_count at 1. simpl.
  assert (E : launch_row h (checkState i)
                (mkFlightApp (name a) (path a) (checkState i))
              = launch_row h (checkState i) a) by reflexivity.
  rewrite E. destruct (launch_row h (checkState i) a) as [evs launched].
  rewrite launch_loop_count. simpl. by destruct launched.
Qed.

(** The sweep over a list is the sweep over its front part followed by
    the sweep over the rest: no turn of the loop ends the loop. *)
Lemma sweep_app before : forall i after,
  sweep_events h checkState i (before ++ after)
  = sweep_events h checkState i before
    ++ sweep_events h checkState (i + length before) after
  /\ sweep_count h checkState i (before ++ after)
     = sweep_count h checkState i before
       + sweep_count h checkState (i + length before) after.
Proof.
  induction before as [|a before IH]; intros i after.
  - simpl. rewrite Nat.add_0_r. by split.
  - rewrite <- app_comm_cons.
    rewrite !sweep_events_cons, !sweep_count_cons.
    destruct (IH (S i) after) as [-> ->].
    replace (i + length (a :: before)) with (S i + length before)
      by (simpl; lia).
    split; [by rewrite app_assoc | lia].
Qed.

Lemma launch_trace w :
  let w' := _launch_selected_applications h checkState w in
  let n := sweep_count h checkState 0 (available_apps w) in
  exists saved,
    (saved = [] \/ saved = [Show ConfigSaveError])
    /\ trace w'
       = trace w ++ sweep_events h checkState 0 (available_apps w)
         ++ saved ++ [Show (launch_report n)].
Proof.
  unfold _launch_selected_applications, sweep_events, sweep_count, launch_report.
  destruct (launch_loop h checkState 0 (available_apps w) 0) as [[apps evs] n].
  simpl.
  destruct (save_config_shape (sys_platform h)
              (mkWorld apps (config w) (trace w ++ evs)))
    as (c' & saved & Hsaved & ->).
  exists saved. split; [exact Hsaved|].
  destruct (0 <? n)%nat; simpl; by rewrite <- !app_assoc.
Qed.
End Launch.

(** C5.  In a launch sweep over a list that holds [app] at row [i]: if the
    row is unchecked the entry contributes no event (no spawn) and nothing
    to the count; if it is checked and its path is unset, empty or absent
    from disk it contributes the missing-path warning and no spawn; if the
    spawn raises it contributes the spawn attempt and the launch-error
    warning.  In each case the rows before and after contribute exactly what
    they contribute on their own, and the reported count is the sum of
    theirs. *)
Theorem launch_sweep_entry (h : Host) (checkState : nat -> bool) (w : World)
    (before after : list FlightApp) (app : FlightApp) :
  available_apps w = before ++ app :: after ->
  let i := length before in
  let w' := _launch_selected_applications h checkState w in
  let ev_before := sweep_events h checkState 0 before in
  let ev_after := sweep_events h checkState (S i) after in
  let n := sweep_count h checkState 0 before + sweep_count h checkState (S i) after in
  exists saved,
    (saved = [] \/ saved = [Show ConfigSaveError])
    /\ (checkState i = false ->
        trace w' = trace w ++ ev_before ++ ev_after
                   ++ saved ++ [Show (launch_report n)])
    /\ (checkState i = true -> launchable h app = false ->
        trace w' = trace w ++ ev_before ++ [Show (MissingPath (name app))] ++ ev_after
                   ++ saved ++ [Show (launch_report n)])
    /\ (forall p,
          checkState i = true -> path app = Some p -> launchable h app = true ->
          popen_raises h (invocation_for h p) = true ->
          trace w' = trace w ++ ev_before
                     ++ [Popen (invocation_for h p); Show (LaunchError (name app))]
                     ++ ev_after ++ saved ++ [Show (launch_report n)]).
Proof.
  intros Happs i w' ev_before ev_after n.
  destruct (launch_trace h checkState w) as (saved & Hsaved & Htrace).
  fold w' in Htrace. rewrite Happs in Htrace.
  destruct (sweep_app h checkState before 0 (app :: after)) as [Hev Hcount].
  rewrite Hev, Hcount in Htrace. simpl in Htrace. fold i in Htrace.
  rewrite sweep_events_cons, sweep_count_cons in Htrace.
  fold ev_before ev_after in Htrace.
  exists saved. split; [exact Hsaved|].
  unfold launch_row, launchable in *.
  split; [|split].
  - intros Hc. rewrite Hc in Htrace. simpl in Htrace. fold n in Htrace.
    rewrite Htrace. by rewrite <- !app_assoc.
  - intros Hc Hl. rewrite Hc in Htrace.
    destruct (path app) as [p|].
    + rewrite Hl in Htrace. simpl in Htrace. fold n in Htrace.
      rewrite Htrace. by rewrite <- !app_assoc.
    + simpl in Htrace. fold n in Htrace. rewrite Htrace. by rewrite <- !app_assoc.
  - intros p Hc Hp Hl Hr. rewrite Hc, Hp in Htrace. rewrite Hp in Hl.
    rewrite Hl, Hr in Htrace. simpl in Htrace. fold n in Htrace.
    rewrite Htrace. by rewrite <- !app_assoc.
Qed.

Lemma launch_sweep_entry_witness :
  let w := mkWorld sample_rows empty_file [] in
  let w' := _launch_selected_applications sample_host sample_checks w in
  exists saved,
    (saved = [] \/ saved = [Show ConfigSaveError])
    /\ trace w'
       = [ Show (MissingPath "Gone");
           Popen (ShellExec "C:\broken.exe"); Show (LaunchError "Broken");
           Popen (ShellExec "C:\charts.exe") ]
         ++ saved ++ [Show (LaunchComplete 1)]
    /\ default_checked <$> available_apps w' = [false; true; true; true].
Proof.
  intros w w'.
  destruct (launch_sweep_entry sample_host sample_checks w
              [mkFlightApp "Sim" (Some "C:\sim.exe") true]
              [mkFlightApp "Broken" (Some "C:\broken.exe") true;
               mkFlightApp "Charts" (Some "C:\charts.exe") true]
              (mkFlightApp "Gone" (Some "C:\gone.exe") false) eq_refl)
    as (saved & Hsaved & _ & Hmissing & _).
  exists saved. split; [exact Hsaved|]. split.
  - exact (Hmissing eq_refl eq_refl).
  - reflexivity.
Defined.

(** ** Adding an entry (C6) *)

(** C6 as stated fails: a name of white space only is not empty for the
    source, which does not trim, and the entry is added under it. *)
Lemma blank_name_is_added :
  let h := bare_host "win32" in
  let w := mkWorld initial_apps empty_file [] in
  let w' := _add_custom_application h " " true (Accepted " " "C:\tool.exe") w in
  blank " " = true
  /\ available_apps w'
     = initial_apps ++ [mkFlightApp " " (Some "C:\tool.exe") false]
  /\ trace w' = [Show (AppAdded " ")].
Proof. vm_compute. repeat split. Qed.

(** C6, amended.  [_add_custom_application] compares with the empty string,
    without trimming: an empty prompt name is refused with the name error;
    an empty path changes nothing and, once the prompt name has passed, is
    refused with the path error; a final name that is in use changes nothing
    and, once prompt name and path have passed, is refused as a duplicate;
    otherwise an entry with a non-empty final name is appended under that
    name with its path and [default_checked = False], the list is saved and
    the success reported. *)
Theorem add_custom_application_checks (h : Host) (w : World)
    (app_name new_app_name new_app_path : string) :
  let add := fun ok name path =>
    _add_custom_application h name ok (Accepted new_app_name path) w in
  let prompt_passes :=
    nonempty app_name = true /\ name_in_use h app_name (available_apps w) = false in
  add true "" new_app_path = show InputErrorName w
  /\ (forall ok,
        available_apps (add ok app_name "") = available_apps w
        /\ config (add ok app_name "") = config w)
  /\ (prompt_passes -> add true app_name "" = show InputErrorPath w)
  /\ (name_in_use h new_app_name (available_apps w) = true ->
      (forall ok,
         available_apps (add ok app_name new_app_path) = available_apps w
         /\ config (add ok app_name new_app_path) = config w)
      /\ (prompt_passes -> nonempty new_app_path = true ->
          add true app_name new_app_path = show (DuplicateName new_app_name) w))
  /\ (prompt_passes -> nonempty new_app_path = true ->
      nonempty new_app_name = true ->
      name_in_use h new_app_name (available_apps w) = false ->
      add true app_name new_app_path
      = show (AppAdded new_app_name)
          (_save_config (sys_platform h)
             (set_apps
                (available_apps w
                 ++ [mkFlightApp new_app_name (Some new_app_path) false]) w))).
Proof.
  intros add prompt_passes. unfold add, prompt_passes, _add_custom_application.
  split; [reflexivity|]. split; [|split; [|split]].
  - intros ok. simpl.
    destruct (ok && nonempty app_name);
      [destruct (name_in_use h app_name (available_apps w)); done|].
    destruct (ok && negb (nonempty app_name)); done.
  - intros [Hn Hfree]. rewrite Hn, Hfree. reflexivity.
  - intros Huse. split.
    + intros ok. apply (add_collision_rejected h app_name ok _ _ w Huse).
    + intros [Hn Hfree] Hp. rewrite Hn, Hfree, Hp, Huse. simpl.
      destruct (String.eqb (str_lower h new_app_name) (str_lower h app_name)) eqn:E;
        [|reflexivity].
      apply String.eqb_eq in E.
      rewrite (name_in_use_folded h _ _ _ E) in Huse. congruence.
  - intros [Hn Hfree] Hp _ Hfree'. rewrite Hn, Hfree, Hp, Hfree'. simpl.
    rewrite andb_false_r. reflexivity.
Qed.

Lemma add_custom_application_checks_witness :
  let h := bare_host "win32" in
  let w := mkWorld initial_apps empty_file [] in
  _add_custom_application h "Volanta" true (Accepted "Volanta" "") w
  = show InputErrorPath w
  /\ _add_custom_application h "Volanta" true
       (Accepted "NAVIGRAPH charts" "C:\n.exe") w
     = show (DuplicateName "NAVIGRAPH charts") w
  /\ available_apps
       (_add_custom_application h "Volanta" true
          (Accepted "Volanta Tracker" "C:\Volanta\Volanta.exe") w)
     = initial_apps
       ++ [mkFlightApp "Volanta Tracker" (Some "C:\Volanta\Volanta.exe") false].
Proof.
  intros h w. split; [|split].
  - exact (proj1 (proj2 (proj2
             (add_custom_application_checks h w "Volanta" "Volanta" "")))
             (conj eq_refl eq_refl)).
  - exact (proj2 (proj1 (proj2 (proj2 (proj2
             (add_custom_application_checks h w "Volanta" "NAVIGRAPH charts" "C:\n.exe"))))
             eq_refl) (conj eq_refl eq_refl) eq_refl).
  - rewrite (proj2 (proj2 (proj2 (proj2
             (add_custom_application_checks h w "Volanta" "Volanta Tracker"
                "C:\Volanta\Volanta.exe"))))
             (conj eq_refl eq_refl) eq_refl eq_refl eq_refl).
    reflexivity.
Defined.

(** The details dialog may hand back an empty name: unlike
    [_edit_selected_application], [_add_custom_application] does not test
    the final name for emptiness. *)
Example empty_final_name_is_added :
  let h := bare_host "win32" in
  let w := mkWorld initial_apps empty_file [] in
  available_apps
    (_add_custom_application h "Volanta" true (Accepted "" "C:\v.exe") w)
  = initial_apps ++ [mkFlightApp "" (Some "C:\v.exe") false]
  /\ _edit_selected_application h (Some 0) (Accepted "" "C:\v.exe") w
     = show InputErrorName w.
Proof. split; reflexivity. Qed.

(** ** Discovery on Windows (C7) *)

Section Probing.
Variable h : Host.

Lemma probe_subdirs_first base exe_name potential_subdirs :
  probe_subdirs h base exe_name potential_subdirs
  = first_existing h
      (map (fun subdir => join3 h base subdir exe_name) potential_subdirs).
Proof.
  unfold first_existing.
  induction potential_subdirs as [|sd rest IH]; simpl; [reflexivity|].
  destruct (os_path_exists h (join3 h base sd exe_name)); [reflexivity | exact IH].
Qed.

Lemma first_existing_app l1 l2 :
  first_existing h (l1 ++ l2)
  = match first_existing h l1 with
    | Some p => Some p
    | None => first_existing h l2
    end.
Proof.
  unfold first_existing. induction l1 as [|x l1 IH]; simpl; [reflexivity|].
  destruct (os_path_exists h x); [reflexivity | exact IH].
Qed.

Lemma probe_bases_first app_name exe_name potential_subdirs bases :
  probe_bases h app_name exe_name potential_subdirs bases
  = first_existing h (probe_order h app_name exe_name potential_subdirs bases).
Proof.
  unfold probe_order.
  induction bases as [|base rest IH]; simpl; [reflexivity|].
  rewrite !first_existing_app, probe_subdirs_first.
  destruct (first_existing h (map _ potential_subdirs)); [reflexivity|].
  unfold first_existing at 1. simpl.
  destruct (os_path_exists h (join3 h base app_name exe_name));
    [reflexivity | exact IH].
Qed.
End Probing.

(** C7 as stated fails: with the simulator installed under its display
    name in the first base directory and under a Steam sub-directory in the
    second, the source returns the direct path of the first base, which it
    tests before any sub-directory of the second base; the order of the
    specification returns the Steam path. *)
Lemma direct_path_tested_before_next_base :
  let h :=
    windows_host
      [("ProgramFiles", "C:\Program Files");
       ("ProgramFiles(x86)", "C:\Program Files (x86)")]
      ["C:\Program Files\Microsoft Flight Simulator\FlightSimulator.exe";
       "C:\Program Files (x86)\Steam\steamapps\common\MicrosoftFlightSimulator\FlightSimulator.exe"]
      None in
  let app_name := "Microsoft Flight Simulator" in
  _find_app_path h app_name
  = Ok (Some "C:\Program Files\Microsoft Flight Simulator\FlightSimulator.exe")
  /\ (exists info,
        table_get app_name (app_info h) = Some info
        /\ first_existing h
             (spec_probe_order h app_name (exe info) (subdirs info)
                (program_files_paths h))
           = Some "C:\Program Files (x86)\Steam\steamapps\common\MicrosoftFlightSimulator\FlightSimulator.exe").
Proof. split; [vm_compute; reflexivity|]. eexists. split; vm_compute; reflexivity. Qed.

(** C7, amended.  For a name with a descriptor, Windows discovery tests the
    base directories in the order ProgramFiles, ProgramFiles(x86),
    LocalAppData (unset and empty ones skipped) and, under each base, every
    candidate sub-directory and then the directory named after the
    application, before it goes on to the next base; the first path that
    exists is returned whatever the registry holds, and the registry is
    consulted only when none of these paths exists. *)
Theorem windows_probe_order (h : Host) (app_name : string) (info : WinInfo) :
  table_get app_name (app_info h) = Some info ->
  let paths :=
    probe_order h app_name (exe info) (subdirs info) (program_files_paths h) in
  (forall p, first_existing h paths = Some p ->
     forall reg, find_windows (set_winreg reg h) app_name = Some p)
  /\ (first_existing h paths = None ->
      find_windows h app_name = find_in_registry h info)
  /\ program_files_paths h
     = List.filter nonempty
         (omap (os_environ h) ["ProgramFiles"; "ProgramFiles(x86)"; "LocalAppData"]).
Proof.
  intros T paths. split; [|split].
  - intros p F reg. unfold find_windows.
    change (app_info (set_winreg reg h)) with (app_info h). rewrite T.
    rewrite probe_bases_first.
    change (first_existing (set_winreg reg h)
              (probe_order (set_winreg reg h) app_name (exe info) (subdirs info)
                 (program_files_paths (set_winreg reg h))))
      with (first_existing h paths).
    by rewrite F.
  - intros F. unfold find_windows. rewrite T, probe_bases_first.
    fold paths. by rewrite F.
  - unfold program_files_paths. simpl.
    destruct (os_environ h "ProgramFiles") as [p1|];
      destruct (os_environ h "ProgramFiles(x86)") as [p2|];
      destruct (os_environ h "LocalAppData") as [p3|]; simpl;
      repeat match goal with
             | |- context [nonempty ?p] => destruct (nonempty p); simpl
             end;
      reflexivity.
Qed.

Lemma windows_probe_order_witness :
  let app_name := "Microsoft Flight Simulator" in
  find_windows
    (set_winreg (Some (registry_pointing_to "D:\Games")) two_installs_host) app_name
  = Some "C:\Program Files\Microsoft Flight Simulator\FlightSimulator.exe"
  /\ find_windows
       (set_winreg (Some (registry_pointing_to "D:\Games"))
          (windows_host [] ["D:\Games\FlightSimulator.exe"] None)) app_name
     = Some "D:\Games\FlightSimulator.exe".
Proof.
  split.
  - eapply (proj1 (windows_probe_order two_installs_host
                     "Microsoft Flight Simulator" _ eq_refl)).
    vm_compute. reflexivity.
  - rewrite (proj1 (proj2 (windows_probe_order
               (set_winreg (Some (registry_pointing_to "D:\Games"))
                  (windows_host [] ["D:\Games\FlightSimulator.exe"] None))
               "Microsoft Flight Simulator" _ eq_refl)));
      vm_compute; reflexivity.
Defined.

(** ** The discovery pass (C8) *)

Section Discovery.
Variable h : Host.

Lemma find_without_descriptor app_name :
  has_descriptor h app_name = false -> _find_app_path h app_name = Ok None.
Proof.
  unfold has_descriptor, _find_app_path, find_windows, find_macos.
  destruct (String.eqb (sys_platform h) "win32").
  - destruct (table_get app_name (app_info h)); [discriminate | reflexivity].
  - destruct (String.eqb (sys_platform h) "darwin"); [|reflexivity].
    destruct (table_get app_name macos_app_info); [discriminate | reflexivity].
Qed.

Lemma find_unsupported app_name :
  sys_platform h <> "win32" -> sys_platform h <> "darwin" ->
  _find_app_path h app_name = Ok None.
Proof.
  intros W D. apply find_without_descriptor. unfold has_descriptor.
  apply String.eqb_neq in W, D. by rewrite W, D.
Qed.

(** The [elif] of the loop never fires: the entry changes exactly when
    the first condition holds. *)
Lemma discover_entry_spec app new_path :
  let changes := path_set new_path && negb (bool_decide (new_path = path app)) in
  discover_entry app new_path
  = (if changes then mkFlightApp (name app) new_path (default_checked app)
     else app, changes).
Proof.
  unfold discover_entry. simpl.
  destruct (path_set new_path) eqn:S; simpl; [|by rewrite andb_false_r].
  destruct (bool_decide (new_path = path app)) eqn:E; simpl; [|reflexivity].
  apply bool_decide_eq_true in E. rewrite <- E, S. reflexivity.
Qed.

Lemma discover_loop_spec apps : forall n apps' k,
  discover_loop h apps n = (apps', Ok k) ->
  Forall2 (discovered h) apps apps' /\ k = n + changed_count apps apps'.
Proof.
  induction apps as [|a apps IH]; intros n apps' k H; simpl in H.
  - injection H as <- <-. split; [constructor | simpl; lia].
  - destruct (_find_app_path h (name a)) as [new_path|e] eqn:F; [|discriminate].
    rewrite discover_entry_spec in H. cbv zeta in H.
    set (changes := path_set new_path && negb (bool_decide (new_path = path a))) in *.
    destruct (discover_loop h apps (if changes then S n else n))
      as [rest r] eqn:L.
    injection H as <- ->.
    destruct (IH _ _ _ L) as [IH1 IH2]. split.
    + constructor; [|exact IH1]. exists new_path. split; [exact F|reflexivity].
    + rewrite IH2. simpl. destruct changes eqn:C; simpl.
      * subst changes. apply andb_true_iff in C as [_ C].
        apply negb_true_iff, bool_decide_eq_false in C.
        rewrite bool_decide_eq_false_2 by congruence. lia.
      * rewrite bool_decide_eq_true_2 by reflexivity. lia.
Qed.

Lemma discover_loop_total apps : forall n,
  (forall a, a ∈ apps -> exists r, _find_app_path h (name a) = Ok r) ->
  exists apps' k, discover_loop h apps n = (apps', Ok k).
Proof.
  induction apps as [|a apps IH]; intros n H; simpl.
  - by eexists _, _.
  - destruct (H a) as [r F]; [by left|]. rewrite F.
    destruct (discover_entry a r) as [a' found].
    destruct (IH (if found then S n else n)) as (apps' & k & L).
    { intros b Hb. apply H. by right. }
    rewrite L. by eexists _, _.
Qed.

(** Whether or not the loop completes, an entry without a descriptor is
    left as it was. *)
Lemma discover_loop_untouched apps : forall n i app,
  apps !! i = Some app ->
  has_descriptor h (name app) = false ->
  fst (discover_loop h apps n) !! i = Some app.
Proof.
  induction apps as [|a apps IH]; intros n i app Hi D; [done|].
  simpl. destruct (_find_app_path h (name a)) as [new_path|e] eqn:F; [|exact Hi].
  rewrite discover_entry_spec. cbv zeta.
  set (changes := path_set new_path && negb (bool_decide (new_path = path a))).
  destruct (discover_loop h apps (if changes then S n else n)) as [rest r] eqn:L.
  destruct i as [|i]; simpl in *.
  - injection Hi as ->. rewrite (find_without_descriptor _ D) in F.
    injection F as <-. reflexivity.
  - specialize (IH (if changes then S n else n) i app Hi D).
    by rewrite L in IH.
Qed.

Lemma discovered_untouched app app' :
  discovered h app app' -> has_descriptor h (name app) = false -> app' = app.
Proof.
  intros (r & F & ->) D. rewrite (find_without_descriptor _ D) in F.
  injection F as <-. reflexivity.
Qed.
End Discovery.

(** C8.  [_find_app_path] returns [None], without raising, for every name
    that has no descriptor on the current platform, and for every name on a
    platform other than Windows and macOS.  When the loop of the discovery
    pass completes, each entry's path has become what [_find_app_path]
    returned exactly when that is a non-empty path different from the
    current one, every other entry is as before, and the count reported at
    the end is the number of entries whose path changed.  An entry without a
    descriptor is left as it was whether or not the loop completes.  The
    loop completes whenever [_find_app_path] raises for no entry, and so on
    every host that is not macOS. *)
Theorem discovery_pass (h : Host) (w : World) :
  (forall app_name,
     has_descriptor h app_name = false -> _find_app_path h app_name = Ok None)
  /\ (sys_platform h <> "win32" -> sys_platform h <> "darwin" ->
      forall app_name, _find_app_path h app_name = Ok None)
  /\ (forall apps' k,
        discover_loop h (available_apps w) 0 = (apps', Ok k) ->
        let w' := _auto_discover_applications h w in
        available_apps w' = apps'
        /\ Forall2 (discovered h) (available_apps w) apps'
        /\ (forall i app,
              available_apps w !! i = Some app ->
              has_descriptor h (name app) = false ->
              apps' !! i = Some app)
        /\ k = changed_count (available_apps w) apps'
        /\ last (trace w') = Some (Show (discovery_report k)))
  /\ (forall i app,
        available_apps w !! i = Some app ->
        has_descriptor h (name app) = false ->
        available_apps (_auto_discover_applications h w) !! i = Some app)
  /\ ((forall app, app ∈ available_apps w ->
         exists r, _find_app_path h (name app) = Ok r) ->
      exists apps' k, discover_loop h (available_apps w) 0 = (apps', Ok k))
  /\ (sys_platform h <> "darwin" ->
      exists apps' k, discover_loop h (available_apps w) 0 = (apps', Ok k)).
Proof.
  split; [apply find_without_descriptor|].
  split; [intros; by apply find_unsupported|].
  split; [|split; [|split]].
  - intros apps' k L w'.
    destruct (discover_loop_spec h _ _ _ _ L) as [F K].
    assert (A : available_apps w' = apps').
    { unfold w', _auto_discover_applications. simpl. rewrite L. simpl.
      destruct (0 <? k)%nat; simpl; by rewrite save_config_apps. }
    split; [exact A|]. split; [exact F|]. split; [|split].
    + intros i app Hi D.
      destruct (Forall2_lookup_l _ _ _ _ _ F Hi) as (app' & Hi' & Hd).
      by rewrite (discovered_untouched h _ _ Hd D) in Hi'.
    + lia.
    + unfold w', _auto_discover_applications. simpl. rewrite L.
      unfold discovery_report, show.
      destruct (0 <? k)%nat; simpl; by rewrite last_snoc.
  - intros i app Hi D.
    pose proof (discover_loop_untouched h _ 0 _ _ Hi D) as U.
    unfold _auto_discover_applications. simpl.
    destruct (discover_loop h (available_apps w) 0) as [apps' [k|e]]; simpl in *;
      [|exact U].
    destruct (0 <? k)%nat; simpl; by rewrite save_config_apps.
  - intros H. by apply discover_loop_total.
  - intros D. apply discover_loop_total. intros app _.
    unfold _find_app_path.
    destruct (String.eqb (sys_platform h) "win32"); [by eexists|].
    apply String.eqb_neq in D. rewrite D. by eexists.
Qed.

Lemma discovery_pass_witness :
  let w' := _auto_discover_applications charts_host charts_world in
  path <$> available_apps w'
  = [ Some "D:\old\FlightSimulator.exe"; None;
      Some "C:\Program Files\Navigraph\Navigraph Charts.exe";
      Some "C:\Volanta\Volanta.exe" ]
  /\ available_apps w' !! 3 = Some (mkFlightApp "Volanta" (Some "C:\Volanta\Volanta.exe") false)
  /\ last (trace w') = Some (Show (DiscoveryComplete 1))
  /\ _find_app_path charts_host "Volanta" = Ok None.
Proof.
  intros w'.
  pose proof (discovery_pass charts_host charts_world) as (Hnone & _ & Hpass & _ & _).
  destruct (Hpass _ 1 eq_refl) as (Happs & _ & Hkeep & _ & Hlast).
  fold w' in Happs, Hlast.
  split; [by rewrite Happs|]. split; [|split].
  - rewrite Happs. exact (Hkeep 3 _ eq_refl eq_refl).
  - exact Hlast.
  - exact (Hnone "Volanta" eq_refl).
Defined.

(** * Further properties of the handlers *)

(** ** What a save leaves in the file *)




(** A file that holds a JSON object and can be written takes every save. *)
Lemma save_config_on_object pf w d :
  on_write (config w) = Completes ->
  content (config w) = Some (JsonText (PyDict d)) ->
  _save_config pf w
  = set_config
      (mkConfigFile
         (Some (JsonText (PyDict (dict_set pf (apps_array (available_apps w)) d))))
         Completes) w.
Proof.
  intros W C. unfold _save_config, save_run, read_existing, write_json.
  by rewrite C, W.
Qed.

Lemma persisted_object pf w :
  persisted pf w ->
  on_write (config w) = Completes
  /\ exists d, content (config w) = Some (JsonText (PyDict d))
              /\ dict_get pf d = Some (apps_array (available_apps w)).
Proof.
  intros [W S]. split; [exact W|]. unfold stored_under in S.
  destruct (content (config w)) as [[v|raw|raw]|]; try discriminate.
  destruct v; try discriminate. by eexists.
Qed.

(** Saving a changed list over a persisted state gives a persisted state. *)
Lemma save_persists pf w apps tr :
  persisted pf w ->
  persisted pf (_save_config pf (mkWorld apps (config w) tr)).
Proof.
  intros P. apply persisted_object in P as (W & d & C & _).
  rewrite (save_config_on_object pf _ d) by assumption.
  split; [reflexivity|]. unfold stored_under. simpl. apply dict_get_set_same.
Qed.

Lemma show_persisted pf m w : persisted pf w -> persisted pf (show m w).
Proof. by intros P. Qed.

(** A start from a persisted file with a non-empty list shows that list and
    nothing else. *)
Lemma load_persisted pf w in_memory tr :
  persisted pf w ->
  available_apps w <> [] ->
  _load_config pf (mkWorld in_memory (config w) tr)
  = Some (mkWorld (available_apps w) (config w) tr).
Proof.
  intros P Hne. apply persisted_object in P as (_ & d & C & G).
  erewrite load_installs_stored; [reflexivity|exact C|exact G| |].
  - destruct (available_apps w); [contradiction|discriminate].
  - apply from_dicts_to_dict.
Qed.

(** ** The file follows the list *)

Lemma find_app_path_total h app_name :
  mdfind_caught h -> exists r, _find_app_path h app_name = Ok r.
Proof.
  intros M. unfold _find_app_path, find_macos.
  destruct (String.eqb (sys_platform h) "win32"); [by eexists|].
  destruct (String.eqb (sys_platform h) "darwin"); [|by eexists].
  destruct (table_get app_name macos_app_info) as [info|]; [|by eexists].
  destruct (os_path_exists h _); [by eexists|].
  destruct (os_path_exists h _); [by eexists|].
  destruct (bundle_id info) as [id|]; [|by eexists].
  specialize (M id). destruct (mdfind h id); [by eexists..|].
  by destruct M.
Qed.

Lemma add_persisted h app_name ok dlg w :
  persisted (sys_platform h) w ->
  persisted (sys_platform h) (_add_custom_application h app_name ok dlg w).
Proof.
  intros P. unfold _add_custom_application.
  repeat match goal with
         | |- persisted _ (if ?b then _ else _) => destruct b
         | |- persisted _ (match ?d with Rejected => _ | Accepted _ _ => _ end) =>
             destruct d
         end;
    try (by apply show_persisted).
  cbv zeta. apply show_persisted. by apply (save_persists _ w).
Qed.

Lemma edit_persisted h selected dlg w :
  persisted (sys_platform h) w ->
  persisted (sys_platform h) (_edit_selected_application h selected dlg w).
Proof.
  intros P. unfold _edit_selected_application.
  destruct selected as [i|]; [|exact P].
  destruct (available_apps w !! i) as [old|]; [|exact P].
  destruct dlg as [|n p]; [by apply show_persisted|].
  repeat match goal with
         | |- persisted _ (if ?b then _ else _) => destruct b
         end;
    try (by apply show_persisted).
  cbv zeta. apply show_persisted. by apply (save_persists _ w).
Qed.

Lemma delete_persisted h selected reply w :
  persisted (sys_platform h) w ->
  persisted (sys_platform h) (_delete_selected_application h selected reply w).
Proof.
  intros P. unfold _delete_selected_application.
  destruct selected as [i|]; [|exact P].
  destruct (available_apps w !! i) as [old|]; [|exact P].
  destruct reply; [|by apply show_persisted].
  cbv zeta. apply show_persisted. by apply (save_persists _ w).
Qed.

Lemma check_persisted h i checked w :
  persisted (sys_platform h) w ->
  persisted (sys_platform h) (_handle_item_checked_changed h i checked w).
Proof.
  intros P. unfold _handle_item_checked_changed.
  destruct (available_apps w !! i) as [a|]; [|exact P].
  by apply (save_persists _ w).
Qed.

Lemma launch_persisted h checkState w :
  persisted (sys_platform h) w ->
  persisted (sys_platform h) (_launch_selected_applications h checkState w).
Proof.
  intros P. unfold _launch_selected_applications.
  destruct (launch_loop h checkState 0 (available_apps w) 0) as [[apps evs] n].
  destruct (0 <? n)%nat; apply show_persisted; by apply (save_persists _ w).
Qed.

Lemma discover_persisted h w :
  mdfind_caught h ->
  persisted (sys_platform h) w ->
  persisted (sys_platform h) (_auto_discover_applications h w).
Proof.
  intros M P. unfold _auto_discover_applications.
  destruct (discover_loop_total h (available_apps (show Discovering w)) 0)
    as (apps' & k & L).
  { intros a _. by apply find_app_path_total. }
  simpl in L |- *. rewrite L.
  destruct (0 <? k)%nat; apply show_persisted;
    by apply (save_persists _ w).
Qed.

Lemma ui_run_persisted h actions : forall w,
  mdfind_caught h ->
  persisted (sys_platform h) w ->
  persisted (sys_platform h) (ui_run h actions w).
Proof.
  induction actions as [|a actions IH]; intros w M P; [exact P|].
  simpl. apply IH; [exact M|]. destruct a; simpl.
  - by apply add_persisted.
  - by apply edit_persisted.
  - by apply delete_persisted.
  - by apply check_persisted.
  - by apply launch_persisted.
  - by apply discover_persisted.
Qed.

(** X1.  Once the file accepts writes and holds the list in memory, it
    keeps doing so: after
    every sequence of adds, edits, deletes, check-box changes, launches and
    discoveries (on a host whose [mdfind] raises nothing uncaught) the file
    stores exactly the list in memory under the platform key, and if that
    list is not empty the next start shows it, entry by entry, with no
    message. *)
Theorem file_follows_list (h : Host) (w : World) (actions : list ui_action) :
  mdfind_caught h ->
  persisted (sys_platform h) w ->
  let w' := ui_run h actions w in
  persisted (sys_platform h) w'
  /\ (available_apps w' <> [] ->
      MainWindow_init (sys_platform h) (config w')
      = Some (mkWorld (available_apps w') (config w') [])).
Proof.
  intros M P w'.
  assert (P' : persisted (sys_platform h) w') by by apply ui_run_persisted.
  split; [exact P'|]. intros Hne. by apply load_persisted.
Qed.

Lemma bare_host_mdfind_caught pf : mdfind_caught (bare_host pf).
Proof. intros id. discriminate. Qed.

Lemma file_follows_list_witness :
  let h := bare_host "win32" in
  let w' := ui_run h sample_session first_start_world in
  MainWindow_init "win32" (config w')
  = Some (mkWorld
            [ mkFlightApp "Microsoft Flight Simulator" None false;
              mkFlightApp "ElevateX" (Some "C:\ElevateX\Elevatex.exe") false;
              mkFlightApp "Volanta" (Some "C:\Volanta\Volanta.exe") true ]
            (config w') []).
Proof.
  intros h w'.
  refine (proj2 (file_follows_list h first_start_world sample_session
                   (bare_host_mdfind_caught "win32") _) _).
  - split; reflexivity.
  - discriminate.
Defined.

(** ** Start-up *)

Lemma from_dicts_length xs : forall apps,
  from_dicts xs = Decoded apps -> length apps = length xs.
Proof.
  induction xs as [|x xs IH]; intros apps H; simpl in H.
  - by injection H as <-.
  - destruct (from_dict x) as [a| |]; simpl in H; try discriminate.
    destruct (from_dicts xs) as [r| |]; simpl in H; try discriminate.
    injection H as <-. simpl. f_equal. by apply IH.
Qed.

(** What the [try] of [_load_config] installs is never the empty list. *)
Lemma load_body_nonempty pf t apps :
  load_body pf t = Decoded (Some apps) -> apps <> [].
Proof.
  unfold load_body. intros H.
  destruct (json_load t) as [v|e]; simpl in H; [|discriminate].
  destruct (py_get v pf (PyList [])) as [apps_data|e]; simpl in H; [|discriminate].
  destruct (truthy apps_data) eqn:T; [|discriminate].
  destruct (from_dict_each apps_data) as [l| |] eqn:F; simpl in H; try discriminate.
  injection H as ->.
  destruct apps_data; simpl in F; try discriminate.
  destruct xs as [|x xs]; [discriminate|].
  apply from_dicts_length in F. intros ->. discriminate.
Qed.

(** How a start can leave the file: as it was, or holding the list shown,
    or with the remains of a write that failed part-way. *)
Lemma load_config_file pf w0 w :
  _load_config pf w0 = Some w ->
  available_apps w0 <> [] ->
  available_apps w <> []
  /\ (config w = config w0 \/ persisted pf w
      \/ exists remains, on_write (config w0) = DumpRaises remains).
Proof.
  assert (S : forall w1, available_apps w1 <> [] -> config w1 = config w0 ->
                available_apps (_save_config pf w1) <> []
                /\ (config (_save_config pf w1) = config w0
                    \/ persisted pf (_save_config pf w1)
                    \/ exists remains, on_write (config w0) = DumpRaises remains)).
  { intros w1 Hne C. rewrite save_config_apps. split; [exact Hne|].
    unfold _save_config.
    destruct (save_run_cases pf (available_apps w1) (config w1))
      as [(d & _ & _ & B) | [(e & B) | (d & remains & _ & W & _)]].
    - right. left. rewrite B. split; [reflexivity|].
      unfold stored_under. simpl. apply dict_get_set_same.
    - left. rewrite B. exact C.
    - right. right. exists remains. by rewrite <- C. }
  unfold _load_config. intros H Hne.
  destruct (content (config w0)) as [t|] eqn:C.
  - destruct (load_body pf t) as [[apps|]|e|] eqn:L; try discriminate.
    + injection H as <-. split; [|by left].
      by apply load_body_nonempty in L.
    + injection H as <-. by apply S.
    + destruct e; injection H as <-; by apply S.
  - injection H as <-. by apply S.
Qed.

(** X2.  A start never leaves the window without entries: whatever the
    configuration file holds, the list installed by [MainWindow.__init__]
    and [_load_config] is not empty. *)
Theorem start_never_empty (pf : string) (c : ConfigFile) (w : World) :
  MainWindow_init pf c = Some w -> available_apps w <> [].
Proof.
  intros H. apply (load_config_file pf _ w H). discriminate.
Qed.

Lemma start_never_empty_witness :
  exists w,
    MainWindow_init "darwin"
      (mkConfigFile (Some (JsonText (PyDict [("darwin", PyList [])]))) OpenRaises)
    = Some w
    /\ available_apps w <> [].
Proof.
  eexists. split; [reflexivity|].
  apply (start_never_empty "darwin"
           (mkConfigFile (Some (JsonText (PyDict [("darwin", PyList [])]))) OpenRaises)).
  reflexivity.
Defined.

(** X3.  Unless a write fails part-way, starting again changes nothing: a
    second start from the file that a first start left behind shows the same
    list and leaves the file as it is, whether the first start loaded the
    list, wrote the seed list, or could not open the file for writing. *)
Theorem restart_is_stable (pf : string) (c : ConfigFile) (w : World) :
  (forall remains, on_write c <> DumpRaises remains) ->
  MainWindow_init pf c = Some w ->
  exists w',
    MainWindow_init pf (config w) = Some w'
    /\ available_apps w' = available_apps w
    /\ config w' = config w.
Proof.
  intros Hdump H.
  destruct (load_config_file pf _ w H) as [Hne [C|[P|[remains W]]]];
    [discriminate| | |].
  - simpl in C. rewrite C. by exists w.
  - eexists. split; [by apply load_persisted|]. by split.
  - by destruct (Hdump remains).
Qed.

Lemma restart_is_stable_witness :
  let c := mkConfigFile (Some (BadText "{")) Completes in
  exists w w',
    MainWindow_init "win32" c = Some w
    /\ MainWindow_init "win32" (config w) = Some w'
    /\ available_apps w' = reset_apps
    /\ trace w = [Show ConfigErrorJSON]
    /\ trace w' = [].
Proof.
  intros c.
  assert (Hdump : forall remains, on_write c <> DumpRaises remains) by discriminate.
  destruct (restart_is_stable "win32" c _ Hdump eq_refl) as (w' & H & A & _).
  eexists _, w'. split; [reflexivity|]. split; [exact H|]. split; [exact A|].
  split; [reflexivity|].
  vm_compute in H. injection H as <-. reflexivity.
Defined.

(** After a write that failed part-way the next start is not the same: the
    first start shows the seed list of [__init__] and leaves a truncated
    file, which the second start takes for invalid JSON and answers with the
    seed list of the error branch. *)
Example restart_after_truncated_write :
  let c := mkConfigFile None (DumpRaises (BadText "{")) in
  exists w w',
    MainWindow_init "win32" c = Some w
    /\ MainWindow_init "win32" (config w) = Some w'
    /\ available_apps w = initial_apps
    /\ available_apps w' = reset_apps.
Proof. by eexists _, _. Qed.



(** ** What discovery returns *)

Section Found.
Variable h : Host.

Lemma first_existing_exists paths p :
  first_existing h paths = Some p -> os_path_exists h p = true.
Proof. intros F. by apply find_some in F as [_ F]. Qed.

Lemma probe_value_exists reg root key value_name exe_name p :
  probe_value h reg root key value_name exe_name = Ok (Some p) ->
  os_path_exists h p = true.
Proof.
  unfold probe_value. destruct (QueryValueEx reg root key value_name) as [dir| |];
    try discriminate.
  destruct (os_path_exists h (os_path_join h dir exe_name)) eqn:E; [|discriminate].
  by intros [= <-].
Qed.

Lemma probe_registry_exists reg key exe_name roots p :
  probe_registry h reg key exe_name roots = Ok (Some p) ->
  os_path_exists h p = true.
Proof.
  induction roots as [|root rest IH]; simpl; [discriminate|].
  destruct (OpenKey reg root key) as [[]| |]; [|exact IH|discriminate].
  destruct (probe_value h reg root key "InstallLocation" exe_name)
    as [[q|]|e] eqn:V1; simpl; [| |discriminate].
  - intros [= <-]. by eapply probe_value_exists.
  - destruct (probe_value h reg root key "Path" exe_name)
      as [[q|]|e] eqn:V2; simpl; [|exact IH|discriminate].
    intros [= <-]. by eapply probe_value_exists.
Qed.

Lemma first_bundle_exists found_paths p :
  first_bundle h found_paths = Some p -> os_path_exists h p = true.
Proof.
  induction found_paths as [|q rest IH]; simpl; [discriminate|].
  destruct (nonempty q && endswith q ".app" && os_path_exists h q) eqn:E;
    [|exact IH].
  intros [= <-]. by apply andb_true_iff in E as [_ E].
Qed.

Lemma find_app_path_exists app_name p :
  _find_app_path h app_name = Ok (Some p) -> os_path_exists h p = true.
Proof.
  unfold _find_app_path.
  destruct (String.eqb (sys_platform h) "win32").
  - unfold find_windows, find_in_registry.
    destruct (table_get app_name (app_info h)) as [info|]; [|discriminate].
    rewrite probe_bases_first.
    destruct (first_existing h _) as [q|] eqn:F.
    + intros [= <-]. by eapply first_existing_exists.
    + destruct (winreg h) as [reg|]; [|discriminate].
      destruct (registry_key info) as [key|]; [|discriminate].
      destruct (probe_registry h reg key (exe info) _) as [[q|]|e] eqn:R;
        try discriminate.
      intros [= <-]. by eapply probe_registry_exists.
  - destruct (String.eqb (sys_platform h) "darwin"); [|discriminate].
    unfold find_macos.
    destruct (table_get app_name macos_app_info) as [info|]; [|discriminate].
    destruct (os_path_exists h (os_path_join h "/Applications" _)) eqn:E1;
      [by intros [= <-]|].
    destruct (os_path_exists h (os_path_join h (os_path_expanduser h _) _)) eqn:E2;
      [by intros [= <-]|].
    destruct (bundle_id info) as [id|]; [|discriminate].
    destruct (mdfind h id) as [found_paths| | |]; try discriminate.
    intros [= F]. by eapply first_bundle_exists.
Qed.
End Found.

(** X5.  Discovery never returns a path it has not seen on disk: whatever
    the platform, the environment, the registry and [mdfind] answer, a path
    returned by [_find_app_path] exists, and the name it was asked for has an
    entry in the descriptor table of the platform. *)
Theorem found_path_exists (h : Host) (app_name p : string) :
  _find_app_path h app_name = Ok (Some p) ->
  os_path_exists h p = true /\ has_descriptor h app_name = true.
Proof.
  intros F. split; [by eapply find_app_path_exists|].
  destruct (has_descriptor h app_name) eqn:D; [reflexivity|].
  rewrite (find_without_descriptor h _ D) in F. discriminate.
Qed.

Lemma found_path_exists_witness :
  let h :=
    set_winreg (Some (registry_pointing_to "D:\Games"))
      (windows_host [] ["D:\Games\FlightSimulator.exe"] None) in
  _find_app_path h "Microsoft Flight Simulator"
  = Ok (Some "D:\Games\FlightSimulator.exe")
  /\ os_path_exists h "D:\Games\FlightSimulator.exe" = true.
Proof.
  intros h. split; [reflexivity|].
  exact (proj1 (found_path_exists h "Microsoft Flight Simulator" _ eq_refl)).
Defined.

(** ** What a discovery pass keeps *)

Section Passes.
Variable h : Host.

(** The only descriptor of macOS carries the one [mdfind] query, so when
    [_find_app_path] raises for one name it finds nothing or raises for every
    name. *)
Lemma find_raises_for_all app_name e :
  _find_app_path h app_name = Raise e ->
  forall other,
    _find_app_path h other = Ok None \/ _find_app_path h other = Raise e.
Proof.
  unfold _find_app_path.
  destruct (String.eqb (sys_platform h) "win32"); [discriminate|].
  destruct (String.eqb (sys_platform h) "darwin"); [|discriminate].
  intros H other. revert H.
  unfold find_macos, macos_app_info, table_get.
  destruct (String.eqb app_name _); [|discriminate].
  destruct (String.eqb other _); [|by left].
  cbn [bundle_name bundle_id].
  destruct (os_path_exists h _); [discriminate|].
  destruct (os_path_exists h _); [discriminate|].
  destruct (mdfind h _); try discriminate.
  intros [= <-]. by right.
Qed.

Lemma discover_entry_none app : discover_entry app None = (app, false).
Proof. unfold discover_entry. simpl. by rewrite andb_false_r. Qed.

Lemma discover_loop_raises e apps : forall n,
  (exists app, app ∈ apps /\ _find_app_path h (name app) = Raise e) ->
  discover_loop h apps n = (apps, Raise e).
Proof.
  induction apps as [|a apps IH]; intros n (app & Hin & F).
  - by apply elem_of_nil in Hin.
  - simpl. destruct (find_raises_for_all _ _ F (name a)) as [E|E]; rewrite E;
      [|reflexivity].
    rewrite discover_entry_none.
    apply elem_of_cons in Hin as [->|Hin]; [congruence|].
    rewrite (IH n); [reflexivity|]. by exists app.
Qed.



Lemma discover_loop_keeps apps : forall n,
  Forall2 (rediscovered h) apps (fst (discover_loop h apps n)).
Proof.
  assert (R : forall a, rediscovered h a a).
  { intros a. repeat split; auto. }
  induction apps as [|a apps IH]; intros n; simpl; [constructor|].
  destruct (_find_app_path h (name a)) as [r|e] eqn:F; simpl.
  - rewrite discover_entry_spec. cbv zeta.
    set (changes := path_set r && negb (bool_decide (r = path a))).
    specialize (IH (if changes then S n else n)).
    destruct (discover_loop h apps (if changes then S n else n)) as [rest r'].
    constructor; [|exact IH].
    destruct changes eqn:C; [|apply R].
    subst changes. apply andb_true_iff in C as [S _].
    repeat split; simpl; [by intros _|].
    destruct r as [p|]; [|discriminate]. right. exists p. split; [reflexivity|].
    by eapply find_app_path_exists.
  - constructor; [apply R|]. clear IH F. induction apps; constructor; auto.
Qed.
End Passes.

Lemma auto_discover_apps h w :
  available_apps (_auto_discover_applications h w)
  = fst (discover_loop h (available_apps w) 0).
Proof.
  unfold _auto_discover_applications. simpl.
  destruct (discover_loop h (available_apps w) 0) as [apps' [k|e]]; simpl;
    [|reflexivity].
  destruct (0 <? k)%nat; simpl; by rewrite save_config_apps.
Qed.

Lemma auto_discover_raises h w e app :
  app ∈ available_apps w ->
  _find_app_path h (name app) = Raise e ->
  _auto_discover_applications h w = show Discovering w.
Proof.
  intros Hin F. unfold _auto_discover_applications. simpl.
  rewrite (discover_loop_raises h e); [|by exists app].
  by destruct w.
Qed.

(** X6.  If [_find_app_path] raises for any entry of the list, the
    discovery pass has no effect beyond its opening message: no path is
    changed, nothing is saved and no result is reported. *)
Theorem failed_discovery_changes_nothing (h : Host) (w : World) (e : exn)
    (app : FlightApp) :
  app ∈ available_apps w ->
  _find_app_path h (name app) = Raise e ->
  _auto_discover_applications h w = show Discovering w.
Proof. apply auto_discover_raises. Qed.

Lemma failed_discovery_changes_nothing_witness :
  let h := mac_host ["/Applications/X-Plane.app"] RunFailure in
  let w := mkWorld reset_apps empty_file [] in
  _auto_discover_applications h w = mkWorld reset_apps empty_file [Show Discovering].
Proof.
  intros h w.
  refine (failed_discovery_changes_nothing h w OSError
            (FlightApp_named "Navigraph Charts") _ eq_refl).
  do 2 right. by left.
Defined.



(** X8.  A discovery pass, completed or not, keeps the number and order of
    the entries, every name and every checked flag; it never unsets a path
    that was set; and a path it changes is changed to a path that exists on
    disk. *)
Theorem discovery_keeps_entries (h : Host) (w : World) :
  Forall2 (rediscovered h) (available_apps w)
    (available_apps (_auto_discover_applications h w)).
Proof. rewrite auto_discover_apps. apply discover_loop_keeps. Qed.

(** ** Check boxes *)

Lemma check_apps h i checked w :
  available_apps (_handle_item_checked_changed h i checked w)
  = alter (fun app => mkFlightApp (name app) (path app) checked) i (available_apps w).
Proof.
  unfold _handle_item_checked_changed.
  destruct (available_apps w !! i) as [a|] eqn:L.
  - rewrite save_config_apps. simpl. apply list_eq. intros j.
    destruct (decide (i = j)) as [<-|Hj].
    + rewrite list_lookup_insert_eq by by eapply lookup_lt_Some.
      by rewrite list_lookup_alter_eq, L.
    + by rewrite list_lookup_insert_ne, list_lookup_alter_ne.
  - apply list_eq. intros j. destruct (decide (i = j)) as [<-|Hj].
    + by rewrite list_lookup_alter_eq, L.
    + by rewrite list_lookup_alter_ne.
Qed.




(** ** Editing and deleting *)

(** An edit either leaves the list as it is or replaces one row by an entry
    with the new name, the new path and the old flag, both texts non-empty. *)
Lemma edit_apps_cases h selected dlg w :
  let apps := available_apps w in
  let apps' := available_apps (_edit_selected_application h selected dlg w) in
  apps' = apps
  \/ exists i old new_name new_path,
       selected = Some i /\ dlg = Accepted new_name new_path
       /\ apps !! i = Some old
       /\ nonempty new_name = true /\ nonempty new_path = true
       /\ apps' = <[i := mkFlightApp new_name (Some new_path) (default_checked old)]> apps.
Proof.
  unfold _edit_selected_application.
  destruct selected as [i|]; [|by left].
  destruct (available_apps w !! i) as [old|] eqn:L; [|by left].
  destruct dlg as [|n p]; [by left|].
  destruct (nonempty n) eqn:Hn; [|by left].
  destruct (nonempty p) eqn:Hp; [|by left]. simpl.
  match goal with |- context [if ?b then _ else _] => destruct b end; [by left|].
  right. exists i, old, n, p. simpl. rewrite save_config_apps. simpl.
  by repeat split.
Qed.

(** X10.  An edit never changes the number of entries, any other row, or any
    checked flag, and a row it changes gets a non-empty name and a non-empty
    path; a rename that changes only the letter case of the entry's own name
    is never refused as a duplicate, whatever the other entries are called. *)
Theorem edit_keeps_rest (h : Host) (w : World) (selected : option nat)
    (dlg : dialog_result) :
  let apps := available_apps w in
  let apps' := available_apps (_edit_selected_application h selected dlg w) in
  length apps' = length apps
  /\ default_checked <$> apps' = default_checked <$> apps
  /\ (forall j, selected <> Some j -> apps' !! j = apps !! j)
  /\ (forall j app', apps' !! j = Some app' -> apps !! j <> Some app' ->
        nonempty (name app') = true
        /\ exists p, path app' = Some p /\ nonempty p = true)
  /\ (forall i old new_name new_path,
        selected = Some i -> dlg = Accepted new_name new_path ->
        apps !! i = Some old ->
        nonempty new_name = true -> nonempty new_path = true ->
        str_lower h new_name = str_lower h (name old) ->
        apps' = <[i := mkFlightApp new_name (Some new_path) (default_checked old)]> apps).
Proof.
  intros apps apps'.
  assert (Own : forall i old new_name new_path,
            selected = Some i -> dlg = Accepted new_name new_path ->
            apps !! i = Some old ->
            nonempty new_name = true -> nonempty new_path = true ->
            str_lower h new_name = str_lower h (name old) ->
            apps' = <[i := mkFlightApp new_name (Some new_path) (default_checked old)]> apps).
  { intros i old n p -> -> L Hn Hp Hl. unfold apps', _edit_selected_application.
    fold apps. rewrite L, Hn, Hp, Hl, String.eqb_refl. simpl.
    by rewrite save_config_apps. }
  destruct (edit_apps_cases h selected dlg w)
    as [E|(i & old & n & p & -> & -> & L & Hn & Hp & E)];
    fold apps apps' in E; rewrite E in *.
  - repeat split; done.
  - fold apps in L. split; [by rewrite length_insert|]. split; [|split; [|split]].
    + rewrite list_fmap_insert. simpl. apply list_insert_id.
      by rewrite list_lookup_fmap, L.
    + intros j Hj. apply list_lookup_insert_ne. congruence.
    + intros j app' Hj Hdiff. destruct (decide (i = j)) as [<-|Hij].
      * rewrite list_lookup_insert_eq in Hj by by eapply lookup_lt_Some.
        injection Hj as <-. simpl. split; [exact Hn|]. by exists p.
      * rewrite list_lookup_insert_ne in Hj by exact Hij. contradiction.
    + exact Own.
Qed.

Lemma edit_keeps_rest_witness :
  let h := bare_host "win32" in
  let w :=
    mkWorld [FlightApp_named "Charts"; mkFlightApp "charts" None true] empty_file [] in
  available_apps
    (_edit_selected_application h (Some 1) (Accepted "CHARTS" "C:\charts.exe") w)
  = [FlightApp_named "Charts"; mkFlightApp "CHARTS" (Some "C:\charts.exe") true].
Proof.
  intros h w.
  exact (proj2 (proj2 (proj2 (proj2
           (edit_keeps_rest h w (Some 1) (Accepted "CHARTS" "C:\charts.exe")))))
           1 _ _ _ eq_refl eq_refl eq_refl eq_refl eq_refl eq_refl).
Defined.

(** X11.  A confirmed delete removes exactly the selected row: the rows
    before it stay where they are, the rows after it move up by one, and the
    list is one entry shorter; without a selection, or when the confirmation
    is declined, the list and the file are left as they are. *)
Theorem delete_removes_selected_row (h : Host) (w : World) (i : nat)
    (app_to_delete : FlightApp) :
  available_apps w !! i = Some app_to_delete ->
  let apps := available_apps w in
  let apps' := available_apps (_delete_selected_application h (Some i) true w) in
  S (length apps') = length apps
  /\ (forall j, j < i -> apps' !! j = apps !! j)
  /\ (forall j, i <= j -> apps' !! j = apps !! S j)
  /\ _delete_selected_application h (Some i) false w = show DeleteCancelled w
  /\ (forall reply, _delete_selected_application h None reply w = w).
Proof.
  intros L apps apps'.
  assert (E : apps' = delete i apps).
  { unfold apps', _delete_selected_application. rewrite L. simpl.
    by rewrite save_config_apps. }
  rewrite E. split; [|split; [|split; [|split]]].
  - assert (Hsome : is_Some (apps !! i)) by by exists app_to_delete.
    pose proof (length_delete apps i Hsome) as Hlen.
    apply lookup_lt_Some in L. unfold apps in *. lia.
  - intros j Hj. by apply list_lookup_delete_lt.
  - intros j Hj. by apply list_lookup_delete_ge.
  - unfold _delete_selected_application. by rewrite L.
  - reflexivity.
Qed.

Lemma delete_removes_selected_row_witness :
  let h := bare_host "win32" in
  let w' := _delete_selected_application h (Some 1) true first_start_world in
  available_apps w' !! 0 = Some (mkFlightApp "Microsoft Flight Simulator" None true)
  /\ available_apps w' !! 1 = Some (FlightApp_named "Navigraph Charts")
  /\ length (available_apps w') = 2.
Proof.
  intros h w'.
  destruct (delete_removes_selected_row h first_start_world 1
              (FlightApp_named "Elevatex") eq_refl) as (_ & Hlt & Hge & _).
  split; [exact (Hlt 0 ltac:(lia))|]. split; [exact (Hge 1 ltac:(lia))|].
  reflexivity.
Defined.

(** ** Adding, then deleting or adding again *)









(** ** More on the launch sweep *)

Section Sweep.
Variable h : Host.
Variable checkState : nat -> bool.

Lemma spawned_app evs1 evs2 : spawned (evs1 ++ evs2) = spawned evs1 ++ spawned evs2.
Proof. apply omap_app. Qed.

Lemma launch_errors_app evs1 evs2 :
  launch_errors (evs1 ++ evs2) = launch_errors evs1 ++ launch_errors evs2.
Proof. apply omap_app. Qed.

(** What one turn of the loop spawns and counts. *)
Lemma launch_row_facts checked app :
  let evs := fst (launch_row h checked app) in
  let launched := snd (launch_row h checked app) in
  spawned evs
  = (if checked && launchable h app
     then match path app with Some p => [invocation_for h p] | None => [] end
     else [])
  /\ (if launched then 1 else 0)
     = length (List.filter (fun inv => negb (popen_raises h inv)) (spawned evs))
  /\ length (launch_errors evs)
     = length (List.filter (popen_raises h) (spawned evs)).
Proof.
  unfold launch_row, launchable. destruct checked; simpl; [|done].
  destruct (path app) as [p|]; simpl; [|done].
  destruct (nonempty p && os_path_exists h p); simpl; [|done].
  destruct (popen_raises h (invocation_for h p)) eqn:R; simpl; by rewrite R.
Qed.

Lemma launch_loop_flags apps : forall i n j,
  fst (fst (launch_loop h checkState i apps n)) !! j
  = (fun app => mkFlightApp (name app) (path app) (checkState (i + j)))
      <$> apps !! j.
Proof.
  induction apps as [|a apps IH]; intros i n j; simpl; [done|].
  destruct (launch_row h (checkState i) _) as [evs launched].
  specialize (IH (S i) (if launched then S n else n)).
  destruct (launch_loop h checkState (S i) apps _) as [[rest evs'] k].
  destruct j as [|j]; simpl.
  - by rewrite Nat.add_0_r.
  - rewrite IH. by replace (S i + j) with (i + S j) by lia.
Qed.

Lemma sweep_spawned apps : forall i inv,
  inv ∈ spawned (sweep_events h checkState i apps)
  <-> exists j app p,
        apps !! j = Some app /\ checkState (i + j) = true
        /\ path app = Some p /\ nonempty p = true /\ os_path_exists h p = true
        /\ inv = invocation_for h p.
Proof.
  induction apps as [|a apps IH]; intros i inv.
  - split; [intros H; by apply elem_of_nil in H|]. by intros (j & app & p & H & _).
  - rewrite sweep_events_cons, spawned_app, elem_of_app, IH.
    destruct (launch_row_facts (checkState i) a) as [-> _].
    unfold launchable. split.
    + intros [H|(j & app & p & L & C & Hp & N & E & ->)].
      * destruct (checkState i) eqn:C; simpl in H; [|by apply elem_of_nil in H].
        destruct (path a) as [p|] eqn:Hp; [|by apply elem_of_nil in H].
        destruct (nonempty p && os_path_exists h p) eqn:B;
          [|by apply elem_of_nil in H].
        apply list_elem_of_singleton in H. apply andb_true_iff in B as [N E].
        exists 0, a, p. rewrite Nat.add_0_r. by repeat split.
      * exists (S j), app, p. replace (i + S j) with (S i + j) by lia.
        by repeat split.
    + intros (j & app & p & L & C & Hp & N & E & ->). destruct j as [|j].
      * left. simpl in L. injection L as ->. rewrite Nat.add_0_r in C.
        rewrite C, Hp, N, E. simpl. by apply list_elem_of_singleton.
      * right. exists j, app, p. replace (S i + j) with (i + S j) by lia.
        by repeat split.
Qed.

Lemma sweep_counts apps : forall i,
  let evs := sweep_events h checkState i apps in
  sweep_count h checkState i apps
  = length (List.filter (fun inv => negb (popen_raises h inv)) (spawned evs))
  /\ length (launch_errors evs)
     = length (List.filter (popen_raises h) (spawned evs))
  /\ length (spawned evs) <= length apps.
Proof.
  induction apps as [|a apps IH]; intros i; [done|]. cbv zeta.
  rewrite sweep_events_cons, sweep_count_cons, spawned_app, launch_errors_app.
  rewrite !List.filter_app, !length_app.
  destruct (IH (S i)) as (-> & -> & Hle).
  destruct (launch_row_facts (checkState i) a) as (Hs & -> & ->).
  split; [reflexivity|]. split; [reflexivity|].
  rewrite Hs. simpl.
  destruct (checkState i && launchable h a); [|simpl; lia].
  destruct (path a); simpl; lia.
Qed.
End Sweep.

Lemma launch_apps h checkState w :
  available_apps (_launch_selected_applications h checkState w)
  = fst (fst (launch_loop h checkState 0 (available_apps w) 0)).
Proof.
  unfold _launch_selected_applications.
  destruct (launch_loop h checkState 0 (available_apps w) 0) as [[apps evs] n].
  destruct (0 <? n)%nat; simpl; by rewrite save_config_apps.
Qed.

(** X14.  A launch sweep leaves every name and path as it is and sets the
    flag of every row to its check box; so a launch with the check boxes as
    the list has them leaves the list unchanged. *)
Theorem launch_sets_flags (h : Host) (checkState : nat -> bool) (w : World) :
  let apps := available_apps w in
  let apps' := available_apps (_launch_selected_applications h checkState w) in
  (forall j,
     apps' !! j
     = (fun app => mkFlightApp (name app) (path app) (checkState j)) <$> apps !! j)
  /\ ((forall j app, apps !! j = Some app -> checkState j = default_checked app) ->
      apps' = apps).
Proof.
  intros apps apps'.
  assert (F : forall j,
            apps' !! j
            = (fun app => mkFlightApp (name app) (path app) (checkState j))
                <$> apps !! j).
  { intros j. unfold apps'. rewrite launch_apps. apply launch_loop_flags. }
  split; [exact F|]. intros Same. apply list_eq. intros j. rewrite F.
  destruct (apps !! j) as [a|] eqn:L; [|reflexivity]. simpl.
  rewrite (Same j a L). by destruct a.
Qed.

Lemma launch_sets_flags_witness :
  let h := bare_host "win32" in
  available_apps
    (_launch_selected_applications h (fun j => (j =? 0)%nat) first_start_world)
  = initial_apps.
Proof.
  intros h.
  apply (proj2 (launch_sets_flags h (fun j => (j =? 0)%nat) first_start_world)).
  intros [|[|[|j]]] app; simpl; intros [= <-]; reflexivity.
Defined.

(** X15.  The number a launch sweep reports is the number of spawn calls
    that did not raise; every spawn call that raised has its launch-error
    box; and no more processes are spawned than there are entries. *)
Theorem launch_count_is_successes (h : Host) (checkState : nat -> bool) (w : World) :
  let w' := _launch_selected_applications h checkState w in
  let evs := sweep_events h checkState 0 (available_apps w) in
  let n := length (List.filter (fun inv => negb (popen_raises h inv)) (spawned evs)) in
  last (trace w') = Some (Show (launch_report n))
  /\ length (launch_errors evs) = length (List.filter (popen_raises h) (spawned evs))
  /\ length (spawned evs) <= length (available_apps w).
Proof.
  intros w' evs n.
  destruct (sweep_counts h checkState (available_apps w) 0) as (Hn & He & Hle).
  split; [|split; assumption].
  destruct (launch_trace h checkState w) as (saved & _ & T).
  fold w' in T. rewrite T, Hn. fold evs n.
  by rewrite !app_assoc, last_snoc.
Qed.

Lemma sweep_calls h checkState apps : forall i,
  spawned (sweep_events h checkState i apps)
  = omap id (imap (fun j app => launch_target h (checkState (i + j)) app) apps).
Proof.
  induction apps as [|a apps IH]; intros i; [reflexivity|].
  rewrite sweep_events_cons, spawned_app, IH, imap_cons.
  destruct (launch_row_facts h (checkState i) a) as [-> _].
  rewrite Nat.add_0_r. unfold launch_target at 2.
  assert (E : imap (fun j app => launch_target h (checkState (S i + j)) app) apps
              = imap ((fun j app => launch_target h (checkState (i + j)) app) ∘ S) apps).
  { apply imap_ext. intros j x _. simpl. by replace (i + S j) with (S (i + j)) by lia. }
  rewrite E.
  destruct (checkState i && launchable h a); [|reflexivity].
  by destruct (path a).
Qed.

(** X16.  A launch sweep calls [subprocess.Popen] exactly once, in list
    order, for each checked entry whose path is set, non-empty and present on
    disk, with the invocation of the current platform, and for no other
    entry: the calls of the sweep are the calls due for its rows, neither
    more nor fewer, and nothing else in the handler calls [Popen]. *)
Theorem launch_spawns_exactly (h : Host) (checkState : nat -> bool) (w : World) :
  let w' := _launch_selected_applications h checkState w in
  spawned (trace w')
  = spawned (trace w) ++ launch_targets h checkState (available_apps w).
Proof.
  intros w'.
  destruct (launch_trace h checkState w) as (saved & Hs & T).
  fold w' in T. rewrite T, !spawned_app, sweep_calls.
  unfold launch_targets. simpl.
  destruct Hs as [-> | ->]; simpl; by rewrite app_nil_r.
Qed.

Example launch_spawns_exactly_sample :
  let w := mkWorld sample_rows empty_file [] in
  launch_targets sample_host sample_checks sample_rows
  = [ShellExec "C:\broken.exe"; ShellExec "C:\charts.exe"]
  /\ spawned (trace (_launch_selected_applications sample_host sample_checks w))
     = [ShellExec "C:\broken.exe"; ShellExec "C:\charts.exe"].
Proof. split; reflexivity. Qed.

(** ** The registry *)

Lemma probe_registry_order h reg key exe_name :
  registry_quiet reg key ->
  forall roots,
    probe_registry h reg key exe_name roots
    = Ok (first_existing h
            (map (fun dir => os_path_join h dir exe_name)
               (registry_dirs reg key roots))).
Proof.
  intros Q roots. induction roots as [|root rest IH]; [reflexivity|].
  simpl. destruct (Q root) as [QO QV].
  destruct (OpenKey reg root key) as [[]| |]; [|exact IH|contradiction].
  unfold probe_value.
  pose proof (QV "InstallLocation") as Q1. pose proof (QV "Path") as Q2.
  destruct (QueryValueEx reg root key "InstallLocation") as [d1| |];
    [| |contradiction];
    (destruct (QueryValueEx reg root key "Path") as [d2| |]; [| |contradiction]);
    unfold first_existing in *; simpl;
    repeat match goal with
           | |- context [os_path_exists h ?p] =>
               destruct (os_path_exists h p); [reflexivity|]; simpl
           end;
    exact IH.
Qed.

(** X17.  When no registry call fails, the registry part of Windows
    discovery returns the first executable that exists among: the machine
    root's [InstallLocation], the machine root's [Path], the user root's
    [InstallLocation], the user root's [Path]; a key or a value that is
    missing is passed over.  Without the [winreg] module or without a
    registry key in the descriptor it returns nothing. *)
Theorem registry_probe_order (h : Host) (info : WinInfo) :
  (forall reg key,
     winreg h = Some reg -> registry_key info = Some key ->
     registry_quiet reg key ->
     find_in_registry h info
     = first_existing h
         (map (fun dir => os_path_join h dir (exe info))
            (registry_dirs reg key [HKEY_LOCAL_MACHINE; HKEY_CURRENT_USER])))
  /\ (winreg h = None \/ registry_key info = None -> find_in_registry h info = None).
Proof.
  split.
  - intros reg key W K Q. unfold find_in_registry. rewrite W, K.
    rewrite (probe_registry_order h reg key (exe info) Q).
    by destruct (first_existing h _).
  - unfold find_in_registry. intros [-> | ->]; [reflexivity|].
    by destruct (winreg h).
Qed.

Lemma registry_probe_order_witness :
  let h :=
    set_winreg (Some (user_registry "D:\Navigraph"))
      (windows_host [] ["D:\Navigraph\Navigraph Charts.exe"] None) in
  _find_app_path h "Navigraph Charts" = Ok (Some "D:\Navigraph\Navigraph Charts.exe").
Proof.
  intros h.
  pose proof (proj1 (registry_probe_order h
                (mkWinInfo "Navigraph Charts.exe" ["Navigraph"; "Navigraph Charts"]
                   (Some "SOFTWARE\Navigraph\Charts")))
                (user_registry "D:\Navigraph") _ eq_refl eq_refl) as R.
  unfold _find_app_path, find_windows. simpl.
  rewrite R; [reflexivity|].
  intros root. split.
  - destruct root; discriminate.
  - intros value_name. simpl. destruct (String.eqb value_name "Path"); discriminate.
Defined.

(** ** What a start shows *)

Lemma load_body_stored_inv pf t apps :
  load_body pf t = Decoded (Some apps) ->
  exists d xs,
    t = JsonText (PyDict d) /\ dict_get pf d = Some (PyList xs)
    /\ from_dicts xs = Decoded apps.
Proof.
  unfold load_body. intros H.
  destruct t as [v|raw|raw]; simpl in H; try discriminate.
  destruct v; simpl in H; try discriminate.
  destruct (dict_get pf kvs) as [apps_data|] eqn:G; [|discriminate].
  destruct (truthy apps_data) eqn:T; [|discriminate].
  destruct apps_data; simpl in H; try discriminate.
  destruct (from_dicts xs) as [l| |] eqn:F; simpl in H; try discriminate.
  injection H as ->. by exists kvs, xs.
Qed.

(** The one place where the embedding abstains: the list stored under the
    platform key holds an object with a field of another type than the data
    model's. *)
Lemma load_body_unmodelled pf t :
  load_body pf t = Unmodelled <->
  exists d xs,
    t = JsonText (PyDict d) /\ dict_get pf d = Some (PyList xs)
    /\ from_dicts xs = Unmodelled.
Proof.
  unfold load_body. split.
  - intros H. destruct t as [v|raw|raw]; simpl in H; try discriminate.
    destruct v; simpl in H; try discriminate.
    destruct (dict_get pf kvs) as [apps_data|] eqn:G; [|discriminate].
    destruct (truthy apps_data) eqn:T; [|discriminate].
    destruct apps_data; simpl in H; try discriminate.
    destruct (from_dicts xs) as [l| |] eqn:F; simpl in H; try discriminate.
    by exists kvs, xs.
  - intros (d & xs & -> & G & F). simpl. rewrite G.
    destruct xs as [|x xs]; [discriminate|].
    change (truthy (PyList (x :: xs))) with true. cbn iota.
    unfold from_dict_each. by rewrite F.
Qed.

Lemma from_dict_raised x e : from_dict x = Raised e -> e = AttributeError.
Proof.
  unfold from_dict. destruct x; try by intros [= <-].
  destruct (name_of_py (dict_get "name" kvs)),
    (path_of_py (dict_get "path" kvs)),
    (checked_of_py (dict_get "default_checked" kvs)); discriminate.
Qed.

Lemma from_dicts_raised xs e : from_dicts xs = Raised e -> e = AttributeError.
Proof.
  induction xs as [|x xs IH]; simpl; [discriminate|].
  destruct (from_dict x) as [a|e0|] eqn:F; simpl; [| |discriminate].
  - destruct (from_dicts xs) as [l|e1|]; simpl; try discriminate.
    intros [= <-]. by apply IH.
  - intros [= <-]. by eapply from_dict_raised.
Qed.

(** The [try] of [_load_config] raises [JSONDecodeError] exactly on text
    that [json.load] rejects as such. *)
Lemma load_body_raised pf t e :
  load_body pf t = Raised e ->
  (e = JSONDecodeError <-> exists raw, t = BadText raw).
Proof.
  unfold load_body. destruct t as [v|raw|raw]; simpl.
  - intros H. split; [|by intros [raw' [=]]]. intros ->. exfalso.
    destruct v; simpl in H; try discriminate.
    destruct (dict_get pf kvs) as [apps_data|]; [|discriminate].
    destruct (truthy apps_data); [|discriminate].
    destruct apps_data; simpl in H; try discriminate.
    destruct (from_dicts xs) as [l|e1|] eqn:F; simpl in H; try discriminate.
    injection H as ->. by apply from_dicts_raised in F.
  - intros [= <-]. split; [by exists raw | reflexivity].
  - intros [= <-]. split; [discriminate | by intros [raw' [=]]].
Qed.

(** X18.  A start is modelled unless the list stored under the platform key
    holds an object with a field of another type than the data model's.  A
    modelled start ends in one of three ways.  Either the stored list is
    shown, with no message and the file untouched; or the seed list of
    [__init__] is shown, with no message other than a possible save error; or
    the seed list of the error branches is shown, after a configuration error
    box: the JSON one exactly when [json.load] raises [JSONDecodeError], the
    other one for a file that parses or that cannot be decoded. *)
Theorem start_outcomes (pf : string) (c : ConfigFile) :
  (MainWindow_init pf c = None <->
   exists d xs,
     content c = Some (JsonText (PyDict d)) /\ dict_get pf d = Some (PyList xs)
     /\ from_dicts xs = Unmodelled)
  /\ forall w,
      MainWindow_init pf c = Some w ->
      (exists d xs,
         content c = Some (JsonText (PyDict d)) /\ dict_get pf d = Some (PyList xs)
         /\ from_dicts xs = Decoded (available_apps w)
         /\ trace w = [] /\ config w = c)
      \/ (available_apps w = initial_apps
          /\ (trace w = [] \/ trace w = [Show ConfigSaveError]))
      \/ (available_apps w = reset_apps
          /\ exists m rest,
               trace w = Show m :: rest
               /\ (rest = [] \/ rest = [Show ConfigSaveError])
               /\ (m = ConfigErrorJSON /\ (exists raw, content c = Some (BadText raw))
                   \/ m = ConfigErrorUnexpected
                      /\ ((exists v, content c = Some (JsonText v))
                          \/ exists raw, content c = Some (Undecodable raw)))).
Proof.
  unfold MainWindow_init, _load_config. simpl. split.
  - destruct (content c) as [t|] eqn:C; [|split; [discriminate|by intros (? & ? & [=] & _)]].
    pose proof (load_body_unmodelled pf t) as U.
    destruct (load_body pf t) as [[apps|]|e|] eqn:L.
    + split; [discriminate|]. intros (d & xs & [= ->] & G & F).
      assert (@Decoded (option (list FlightApp)) (Some apps) = Unmodelled)
        by (apply U; eauto). discriminate.
    + split; [discriminate|]. intros (d & xs & [= ->] & G & F).
      assert (@Decoded (option (list FlightApp)) None = Unmodelled)
        by (apply U; eauto). discriminate.
    + split; [by destruct e|]. intros (d & xs & [= ->] & G & F).
      assert (@Raised (option (list FlightApp)) e = Unmodelled)
        by (apply U; eauto). discriminate.
    + split; [|reflexivity]. intros _.
      destruct (proj1 U eq_refl) as (d & xs & -> & G & F). by exists d, xs.
  - intros w H.
    assert (S : forall w1,
              exists saved,
                (saved = [] \/ saved = [Show ConfigSaveError])
                /\ available_apps (_save_config pf w1) = available_apps w1
                /\ trace (_save_config pf w1) = trace w1 ++ saved).
    { intros w1. destruct (save_config_shape pf w1) as (c' & saved & Hs & ->).
      by exists saved. }
    destruct (content c) as [t|] eqn:C.
    + destruct (load_body pf t) as [[apps|]|e|] eqn:L; try discriminate.
      * injection H as <-. left.
        apply load_body_stored_inv in L as (d & xs & -> & G & F).
        by exists d, xs.
      * injection H as <-. right. left.
        destruct (S (mkWorld initial_apps c [])) as (saved & Hs & -> & ->).
        split; [reflexivity|]. simpl. destruct Hs as [-> | ->]; auto.
      * right. right.
        pose proof (load_body_raised pf t e L) as J.
        assert (T : exists m,
                  w = _save_config pf (mkWorld reset_apps c [Show m])
                  /\ (m = ConfigErrorJSON /\ (exists raw, t = BadText raw)
                      \/ m = ConfigErrorUnexpected
                         /\ ((exists v, t = JsonText v)
                             \/ exists raw, t = Undecodable raw))).
        { assert (D : e = JSONDecodeError \/ e <> JSONDecodeError)
            by (destruct e; (by left) || (by right)).
          destruct D as [->|Hne].
          - injection H as <-. exists ConfigErrorJSON.
            split; [reflexivity|]. left. split; [reflexivity|]. by apply J.
          - exists ConfigErrorUnexpected. split; [by destruct e; injection H as <-|].
            right. split; [reflexivity|].
            destruct t as [v|raw|raw]; eauto.
            destruct Hne. apply J. by exists raw. }
        destruct T as (m & -> & Hm).
        destruct (S (mkWorld reset_apps c [Show m])) as (saved & Hs & -> & ->).
        split; [reflexivity|]. exists m, saved. split; [reflexivity|].
        split; [exact Hs|].
        destruct Hm as [[-> [raw ->]]|[-> [[v ->]|[raw ->]]]]; eauto.
    + injection H as <-. right. left.
      destruct (S (mkWorld initial_apps c [])) as (saved & Hs & -> & ->).
      split; [reflexivity|]. simpl. destruct Hs as [-> | ->]; auto.
Qed.

Lemma start_outcomes_witness :
  let c := mkConfigFile (Some (Undecodable "not text")) Completes in
  exists w,
    MainWindow_init "win32" c = Some w
    /\ available_apps w = reset_apps
    /\ trace w = [Show ConfigErrorUnexpected; Show ConfigSaveError]
    /\ config w = c.
Proof.
  intros c. eexists. split; [reflexivity|].
  destruct (proj2 (start_outcomes "win32" c) _ eq_refl)
    as [(d & xs & _ & _ & _ & T & _) | [[A _] | [A _]]].
  - discriminate T.
  - discriminate A.
  - split; [exact A|]. split; reflexivity.
Defined.

(** ** Names under every handler *)

Lemma names_unique_same_names h (apps apps' : list FlightApp) :
  name <$> apps' = name <$> apps ->
  names_unique h apps -> names_unique h apps'.
Proof.
  unfold names_unique. intros E U.
  assert (folded_name h <$> apps' = folded_name h <$> apps) as ->; [|exact U].
  apply list_eq. intros j. rewrite !list_lookup_fmap.
  apply (f_equal (fun l => l !! j)) in E. rewrite !list_lookup_fmap in E.
  destruct (apps' !! j), (apps !! j); simpl in *; try discriminate; [|done].
  injection E as E. unfold folded_name. by rewrite E.
Qed.

Lemma check_names h i checked w :
  name <$> available_apps (_handle_item_checked_changed h i checked w)
  = name <$> available_apps w.
Proof.
  rewrite check_apps. apply list_eq. intros j. rewrite !list_lookup_fmap.
  destruct (decide (i = j)) as [<-|Hj].
  - rewrite list_lookup_alter_eq. by destruct (available_apps w !! i).
  - by rewrite list_lookup_alter_ne.
Qed.

Lemma launch_names h checkState w :
  name <$> available_apps (_launch_selected_applications h checkState w)
  = name <$> available_apps w.
Proof.
  rewrite launch_apps. apply list_eq. intros j.
  rewrite !list_lookup_fmap, launch_loop_flags.
  by destruct (available_apps w !! j).
Qed.

Lemma discover_names h w :
  name <$> available_apps (_auto_discover_applications h w)
  = name <$> available_apps w.
Proof.
  rewrite auto_discover_apps.
  pose proof (discover_loop_keeps h (available_apps w) 0) as F.
  induction F as [|a a' l l' (N & _) _ IH]; [reflexivity|].
  rewrite !fmap_cons. by rewrite N, IH.
Qed.

(** X19.  No handler of the window can introduce a duplicate name: starting
    from a list whose names are unique case-insensitively, the names stay
    unique after every sequence of adds, edits, deletes, check-box changes,
    launches and discoveries. *)
Theorem every_handler_keeps_names_unique (h : Host) (actions : list ui_action) :
  forall w,
    names_unique h (available_apps w) ->
    names_unique h (available_apps (ui_run h actions w)).
Proof.
  induction actions as [|a actions IH]; intros w U; [exact U|].
  simpl. apply IH. destruct a; simpl.
  - by apply add_unique.
  - by apply edit_unique.
  - by apply remove_unique.
  - eapply names_unique_same_names; [apply check_names | exact U].
  - eapply names_unique_same_names; [apply launch_names | exact U].
  - eapply names_unique_same_names; [apply discover_names | exact U].
Qed.

Lemma every_handler_keeps_names_unique_witness :
  let h := bare_host "win32" in
  names_unique h (available_apps (ui_run h sample_session first_start_world)).
Proof.
  intros h.
  apply (every_handler_keeps_names_unique h sample_session first_start_world).
  exact initial_apps_unique.
Defined.

(** ** Reading one stored entry *)

(** X20.  [from_dict] reads the three keys it knows and nothing else: a
    missing "path" gives no path, a missing "default_checked" gives an
    unchecked entry, keys it does not know are ignored, and a value that is
    not an object makes it raise. *)
Theorem from_dict_defaults (d : list (string * pyval)) (n : string) :
  dict_get "name" d = Some (PyStr n) ->
  (dict_get "path" d = None -> dict_get "default_checked" d = None ->
   from_dict (PyDict d) = Decoded (FlightApp_named n))
  /\ (forall d',
        dict_get "name" d' = dict_get "name" d ->
        dict_get "path" d' = dict_get "path" d ->
        dict_get "default_checked" d' = dict_get "default_checked" d ->
        from_dict (PyDict d') = from_dict (PyDict d))
  /\ (forall v, (forall kvs, v <> PyDict kvs) -> from_dict v = Raised AttributeError).
Proof.
  intros N. split; [|split].
  - intros P C. unfold from_dict. by rewrite N, P, C.
  - intros d' N' P' C'. unfold from_dict. by rewrite N', P', C'.
  - intros v Hv. destruct v; try reflexivity. by destruct (Hv kvs).
Qed.

Lemma from_dict_defaults_witness :
  from_dict (PyDict [("comment", PyStr "added by hand"); ("name", PyStr "Volanta")])
  = Decoded (FlightApp_named "Volanta")
  /\ from_dict (PyStr "Volanta") = Raised AttributeError.
Proof.
  split.
  - exact (proj1 (from_dict_defaults
                    [("comment", PyStr "added by hand"); ("name", PyStr "Volanta")]
                    "Volanta" eq_refl) eq_refl eq_refl).
  - refine (proj2 (proj2 (from_dict_defaults [("name", PyStr "x")] "x" eq_refl)) _ _).
    intros kvs. discriminate.
Defined.
